(** * LightOfPDF: the request handlers of [app.py], embedded and verified

    [app.py] is a Flask application over one MongoDB collection, [db.pdfs].
    The handlers are embedded as computations in a small monad over a
    [world] that holds the collection, the session flag, the flashed
    messages and the trace of collection calls.  Python strings are
    embedded as [string]; characters are the 8-bit code points
    U+0000..U+00FF, on which [str.lower] and [str.strip] are written out. *)

From Stdlib Require Import String Ascii List Bool NArith Lia.
Import ListNotations.
Local Open Scope string_scope.

(** ** Python string primitives *)

Module PyStr.

(** [c.lower()] for one code point of the Latin-1 range: [A-Z] and the
    accented capitals U+00C0..U+00DE (without the multiplication sign
    U+00D7) move up by 32, every other code point is unchanged. *)
Definition lower_char (c : ascii) : ascii :=
  let n := N_of_ascii c in
  if ((65 <=? n) && (n <=? 90)
      || (192 <=? n) && (n <=? 222) && negb (n =? 215))%N
  then ascii_of_N (n + 32) else c.

(** [c.isspace()]: TAB..CR, FS..US, SPACE, NEL (U+0085), NBSP (U+00A0). *)
Definition isspace (c : ascii) : bool :=
  let n := N_of_ascii c in
  ((9 <=? n) && (n <=? 13) || (28 <=? n) && (n <=? 32)
   || (n =? 133) || (n =? 160))%N.

(** [s.lower()] *)
Fixpoint lower (s : string) : string :=
  match s with
  | EmptyString => EmptyString
  | String c s' => String (lower_char c) (lower s')
  end.

(** [s.lstrip()] *)
Fixpoint lstrip (s : string) : string :=
  match s with
  | EmptyString => EmptyString
  | String c s' => if isspace c then lstrip s' else s
  end.

(** [s.rstrip()]: a character is dropped when it is whitespace and
    nothing survives to its right. *)
Fixpoint rstrip (s : string) : string :=
  match s with
  | EmptyString => EmptyString
  | String c s' =>
      match rstrip s' with
      | EmptyString => if isspace c then EmptyString else String c EmptyString
      | r => String c r
      end
  end.

(** [s.strip()] *)
Definition strip (s : string) : string := rstrip (lstrip s).

(** Python truthiness of a string: [not s] holds for the empty string
    only. *)
Definition truthy (s : string) : bool :=
  match s with EmptyString => false | String _ _ => true end.

(** [x in l] for a list of strings. *)
Definition str_in (x : string) (l : list string) : bool :=
  existsb (String.eqb x) l.

(** A string of whitespace only (the empty string included). *)
Fixpoint whitespace_only (s : string) : bool :=
  match s with
  | EmptyString => true
  | String c s' => isspace c && whitespace_only s'
  end.

(** A string that does not begin with whitespace. *)
Definition left_clean (s : string) : bool :=
  match s with
  | EmptyString => true
  | String c _ => negb (isspace c)
  end.

(** [needle in hay] for strings. *)
Fixpoint contains (needle hay : string) : bool :=
  String.prefix needle hay
  || match hay with
     | EmptyString => false
     | String _ hay' => contains needle hay'
     end.

End PyStr.
Import PyStr.

(** ** Fixed data ([app.py], lines 15-31) *)

Definition MODES : list string := ["academic"; "admission"].

Definition SUBJECTS : list string :=
  [ "physics 1st paper";
    "physics 2nd paper";
    "chemistry 1st paper";
    "chemistry 2nd paper";
    "math 1st paper";
    "math 2nd paper";
    "biology 1st paper";
    "biology 2nd paper";
    "english 1st paper";
    "bangla 1st paper";
    "bangla 2nd paper";
    "ict" ].

(** [valid_mode] and [valid_subject] lowercase their argument themselves,
    as the source does, although every caller has lowercased it already. *)
Definition valid_mode (mode : string) : bool := str_in (lower mode) MODES.

Definition valid_subject (subject : string) : bool :=
  str_in (lower subject) SUBJECTS.

(** ** Regular expressions of the collection's [$regex] operator

    [search] hands the query to MongoDB as a [$regex] pattern, which the
    server compiles with PCRE.  The engine is not part of the repository;
    this module embeds the fragment of PCRE's pattern syntax that the
    statements below rely on: literal characters, [.], a backslash before
    a non-alphanumeric ASCII character, groups, alternation and the
    quantifiers [*], [+], [?] with their lazy forms.  A pattern that uses
    anything else (anchors, character classes, counted repetition,
    letter escapes, [(?] groups, possessive quantifiers) compiles to
    [Beyond]: the embedding says nothing about it.  Only the existence of
    a match is embedded, not its position, and no resource limit. *)

Module Regex.

Inductive regex : Type :=
| Fail                       (* matches nothing *)
| Eps                        (* matches the empty string *)
| Chr (c : ascii)
| Dot                        (* any character but a line feed *)
| Seq (r1 r2 : regex)
| Alt (r1 r2 : regex)
| Star (r : regex).

Definition Plus (r : regex) : regex := Seq r (Star r).
Definition Opt (r : regex) : regex := Alt r Eps.

(** *** Pattern syntax *)

Inductive token : Type :=
| TLiteral | TBackslash | TOpen | TClose | TBar
| TStar | TPlus | TQuest | TDot
| TCaret | TDollar | TBracket | TBrace.

(** PCRE's metacharacters outside a character class:
    [\ ^ $ . [ | ( ) ? * + {]. *)
Definition classify (c : ascii) : token :=
  if Ascii.eqb c "\" then TBackslash
  else if Ascii.eqb c "(" then TOpen
  else if Ascii.eqb c ")" then TClose
  else if Ascii.eqb c "|" then TBar
  else if Ascii.eqb c "*" then TStar
  else if Ascii.eqb c "+" then TPlus
  else if Ascii.eqb c "?" then TQuest
  else if Ascii.eqb c "." then TDot
  else if Ascii.eqb c "^" then TCaret
  else if Ascii.eqb c "$" then TDollar
  else if Ascii.eqb c "[" then TBracket
  else if Ascii.eqb c "{" then TBrace
  else TLiteral.

Definition is_meta (c : ascii) : bool :=
  match classify c with TLiteral => false | _ => true end.

(** An ASCII character that is neither a letter nor a digit: after a
    backslash it stands for itself. *)
Definition escapable (c : ascii) : bool :=
  let n := N_of_ascii c in
  ((n <? 128)
   && negb ((48 <=? n) && (n <=? 57)
            || (65 <=? n) && (n <=? 90)
            || (97 <=? n) && (n <=? 122)))%N.

Inductive failure : Type :=
| Malformed   (* the engine rejects the pattern *)
| Beyond.     (* the pattern leaves the embedded fragment *)

(** One nesting level under construction: the alternatives already
    closed by [|] and the items of the running sequence, both newest
    first. *)
Record frame : Type := { alts : list regex; cur : list regex }.

Inductive last : Type :=
| AtStart | AfterOpen | AfterAtom | AfterQuant | AfterLazy
| AfterBackslash.

Record pstate : Type :=
  { outer : list frame; top : frame; prev : last }.

Definition seq_of (items : list regex) : regex :=
  fold_left (fun acc r => Seq r acc) items Eps.

Definition close (f : frame) : regex :=
  fold_left (fun acc a => Alt a acc) (alts f) (seq_of (cur f)).

Definition push (r : regex) (st : pstate) : pstate :=
  {| outer := outer st;
     top := {| alts := alts (top st); cur := r :: cur (top st) |};
     prev := AfterAtom |}.

Definition quantify (q : regex -> regex) (st : pstate)
  : failure + pstate :=
  match prev st, cur (top st) with
  | AfterAtom, r :: rest =>
      inr {| outer := outer st;
             top := {| alts := alts (top st); cur := q r :: rest |};
             prev := AfterQuant |}
  | AfterAtom, [] => inl Malformed
  | AtStart, _ => inl Malformed        (* nothing to repeat *)
  | _, _ => inl Beyond
  end.

Definition step (st : pstate) (c : ascii) : failure + pstate :=
  match prev st with
  | AfterBackslash =>
      if escapable c then inr (push (Chr c) st) else inl Beyond
  | p =>
      match classify c with
      | TLiteral => inr (push (Chr c) st)
      | TDot => inr (push Dot st)
      | TBackslash =>
          inr {| outer := outer st; top := top st;
                 prev := AfterBackslash |}
      | TOpen =>
          inr {| outer := top st :: outer st;
                 top := {| alts := []; cur := [] |};
                 prev := AfterOpen |}
      | TClose =>
          match outer st with
          | [] => inl Malformed         (* unmatched parenthesis *)
          | f :: fs =>
              inr {| outer := fs;
                     top := {| alts := alts f;
                               cur := close (top st) :: cur f |};
                     prev := AfterAtom |}
          end
      | TBar =>
          inr {| outer := outer st;
                 top := {| alts := seq_of (cur (top st)) :: alts (top st);
                           cur := [] |};
                 prev := AtStart |}
      | TStar => quantify Star st
      | TPlus => quantify Plus st
      | TQuest =>
          match p with
          | AfterQuant =>
              inr {| outer := outer st; top := top st;
                     prev := AfterLazy |}
          | _ => quantify Opt st
          end
      | TCaret | TDollar | TBracket | TBrace => inl Beyond
      end
  end.

Definition finish (st : pstate) : failure + regex :=
  match prev st, outer st with
  | AfterBackslash, _ => inl Malformed  (* backslash ends the pattern *)
  | _, [] => inr (close (top st))
  | _, _ :: _ => inl Malformed          (* missing closing parenthesis *)
  end.

Fixpoint parse (st : pstate) (pattern : string) : failure + regex :=
  match pattern with
  | EmptyString => finish st
  | String c rest =>
      match step st c with
      | inl e => inl e
      | inr st' => parse st' rest
      end
  end.

Definition start : pstate :=
  {| outer := []; top := {| alts := []; cur := [] |}; prev := AtStart |}.

Definition compile (pattern : string) : failure + regex :=
  parse start pattern.

(** *** Matching, by derivatives *)

Definition char_eq (caseless : bool) (a c : ascii) : bool :=
  if caseless then Ascii.eqb (lower_char a) (lower_char c)
  else Ascii.eqb a c.

Fixpoint nullable (r : regex) : bool :=
  match r with
  | Fail | Chr _ | Dot => false
  | Eps | Star _ => true
  | Seq r1 r2 => nullable r1 && nullable r2
  | Alt r1 r2 => nullable r1 || nullable r2
  end.

Fixpoint deriv (caseless : bool) (c : ascii) (r : regex) : regex :=
  match r with
  | Fail | Eps => Fail
  | Chr a => if char_eq caseless a c then Eps else Fail
  | Dot => if Ascii.eqb c "010" then Fail else Eps
  | Seq r1 r2 =>
      Alt (Seq (deriv caseless c r1) r2)
          (if nullable r1 then deriv caseless c r2 else Fail)
  | Alt r1 r2 => Alt (deriv caseless c r1) (deriv caseless c r2)
  | Star r1 => Seq (deriv caseless c r1) (Star r1)
  end.

(** [r] matches some prefix of [s]. *)
Fixpoint match_here (caseless : bool) (r : regex) (s : string) : bool :=
  match s with
  | EmptyString => nullable r
  | String c s' =>
      nullable r || match_here caseless (deriv caseless c r) s'
  end.

(** [r] matches somewhere in [s]: the unanchored search of [$regex]. *)
Fixpoint search_in (caseless : bool) (r : regex) (s : string) : bool :=
  match_here caseless r s
  || match s with
     | EmptyString => false
     | String _ s' => search_in caseless r s'
     end.

(** The strings a regex matches in full: the meaning that [match_here]
    and [search_in] decide. *)
Inductive Matches (caseless : bool) : regex -> string -> Prop :=
| MEps : Matches caseless Eps ""
| MChr a c :
    char_eq caseless a c = true -> Matches caseless (Chr a) (String c "")
| MDot c :
    Ascii.eqb c "010" = false -> Matches caseless Dot (String c "")
| MSeq r1 r2 s1 s2 :
    Matches caseless r1 s1 -> Matches caseless r2 s2 ->
    Matches caseless (Seq r1 r2) (s1 ++ s2)
| MAltL r1 r2 s : Matches caseless r1 s -> Matches caseless (Alt r1 r2) s
| MAltR r1 r2 s : Matches caseless r2 s -> Matches caseless (Alt r1 r2) s
| MStar0 r : Matches caseless (Star r) ""
| MStarS r s1 s2 :
    Matches caseless r s1 -> Matches caseless (Star r) s2 ->
    Matches caseless (Star r) (s1 ++ s2).

(** The regex of a pattern without metacharacters: its characters in
    sequence. *)
Fixpoint literal (p : string) : regex :=
  match p with
  | EmptyString => Eps
  | String c p' => Seq (Chr c) (literal p')
  end.

Fixpoint no_meta (p : string) : bool :=
  match p with
  | EmptyString => true
  | String c p' => negb (is_meta c) && no_meta p'
  end.

End Regex.

(** ** The collection [db.pdfs] *)

(** A stored record: the seven keys of [pdf_data] in [upload].  The
    [_id] that the store adds on insertion is never read by the handlers
    and is left out. *)
Record Document : Type :=
  { mode : string;
    subject : string;
    title : string;
    filename : string;
    link : string;
    description : string;
    photo : string }.

Module Mongo.

Inductive key : Type :=
| k_mode | k_subject | k_title | k_filename | k_link
| k_description | k_photo.

Definition field (k : key) (d : Document) : string :=
  match k with
  | k_mode => mode d
  | k_subject => subject d
  | k_title => title d
  | k_filename => filename d
  | k_link => link d
  | k_description => description d
  | k_photo => photo d
  end.

(** What a filter document says about one key: a value to equal, or
    [{"$regex": pattern, "$options": options}]. *)
Inductive cond : Type :=
| Equals (v : string)
| RegexOpts (pattern options : string).

Definition clause : Type := list (key * cond).

(** The two filter shapes of [app.py]: a document of conditions, all
    of which must hold, and [{"$or": [...]}] over such documents. *)
Inductive filter : Type :=
| All (c : clause)
| AnyOf (cs : list clause).

Inductive ccond : Type :=
| CEquals (v : string)
| CRegex (caseless : bool) (r : Regex.regex).

(** [$options]: none, or ["i"] for caseless matching; the other option
    letters are outside the embedded fragment. *)
Definition caseless_of (options : string) : Regex.failure + bool :=
  if String.eqb options "" then inr false
  else if String.eqb options "i" then inr true
  else inl Regex.Beyond.

Definition compile_cond (c : cond) : Regex.failure + ccond :=
  match c with
  | Equals v => inr (CEquals v)
  | RegexOpts pattern options =>
      match caseless_of options, Regex.compile pattern with
      | inl e, _ => inl e
      | _, inl e => inl e
      | inr cl, inr r => inr (CRegex cl r)
      end
  end.

Fixpoint compile_clause (c : clause)
  : Regex.failure + list (key * ccond) :=
  match c with
  | [] => inr []
  | (k, cd) :: rest =>
      match compile_cond cd, compile_clause rest with
      | inl e, _ => inl e
      | _, inl e => inl e
      | inr cc, inr rest' => inr ((k, cc) :: rest')
      end
  end.

Fixpoint compile_clauses (cs : list clause)
  : Regex.failure + list (list (key * ccond)) :=
  match cs with
  | [] => inr []
  | c :: rest =>
      match compile_clause c, compile_clauses rest with
      | inl e, _ => inl e
      | _, inl e => inl e
      | inr c', inr rest' => inr (c' :: rest')
      end
  end.

Definition holds (d : Document) (kc : key * ccond) : bool :=
  match snd kc with
  | CEquals v => String.eqb (field (fst kc) d) v
  | CRegex caseless r => Regex.search_in caseless r (field (fst kc) d)
  end.

(** The server checks the filter's patterns before it looks at any
    record; afterwards a filter is a predicate on records. *)
Definition compile_filter (f : filter)
  : Regex.failure + (Document -> bool) :=
  match f with
  | All c =>
      match compile_clause c with
      | inl e => inl e
      | inr c' => inr (fun d => forallb (holds d) c')
      end
  | AnyOf cs =>
      match compile_clauses cs with
      | inl e => inl e
      | inr cs' => inr (fun d => existsb (forallb (holds d)) cs')
      end
  end.

Inductive call : Type :=
| find (f : filter)
| find_one (f : filter)
| insert_one (d : Document).

End Mongo.

(** ** Flask: requests, responses and the handlers' monad *)

(** [request.form] and [request.args]: keys with their values in
    submission order; [get] takes the first value of the key. *)
Definition MultiDict : Type := list (string * string).

Fixpoint md_get (md : MultiDict) (k default : string) : string :=
  match md with
  | [] => default
  | (k', v) :: rest => if String.eqb k' k then v else md_get rest k default
  end.

Inductive page : Type :=
| error_html (message : string)
| subject_html (mode subject : string) (pdfs : list Document)
| pdf_view_html (pdf : Document)
| upload_html (form : option MultiDict)
| search_results_html (results : list Document) (query : string).

Inductive endpoint : Type :=
| to_login
| to_subject_page (mode subject : string).

Inductive response : Type :=
| render_template (p : page) (status : nat)
| redirect (e : endpoint).

(** The collection in insertion order, the calls made on it (oldest
    first), the session's [admin_logged_in] entry and the flashed
    messages with their categories (oldest first). *)
Record world : Type :=
  { pdfs : list Document;
    calls : list Mongo.call;
    admin_logged_in : bool;
    flashes : list (string * string) }.

Inductive exn : Type :=
| OperationFailure   (* the server rejected the query *)
| Unmodelled.        (* the query leaves the embedded regex fragment *)

Inductive outcome (A : Type) : Type :=
| Done (a : A)
| Raised (e : exn).
Arguments Done {A} a.
Arguments Raised {A} e.

Definition M (A : Type) : Type := world -> outcome A * world.

Definition ret {A} (a : A) : M A := fun w => (Done a, w).

Definition bind {A B} (m : M A) (k : A -> M B) : M B :=
  fun w =>
    match m w with
    | (Done a, w') => k a w'
    | (Raised e, w') => (Raised e, w')
    end.

Declare Scope handler_scope.
Delimit Scope handler_scope with handler.
Notation "x <- m ;; k" := (bind m (fun x => k))
  (at level 61, m at next level, right associativity) : handler_scope.
Notation "m ;; k" := (bind m (fun _ => k))
  (at level 61, right associativity) : handler_scope.
Local Open Scope handler_scope.

Definition log (c : Mongo.call) (w : world) : world :=
  {| pdfs := pdfs w; calls := calls w ++ [c];
     admin_logged_in := admin_logged_in w; flashes := flashes w |}.

Definition exn_of (e : Regex.failure) : exn :=
  match e with
  | Regex.Malformed => OperationFailure
  | Regex.Beyond => Unmodelled
  end.

(** [list(db.pdfs.find(f))] *)
Definition db_find (f : Mongo.filter) : M (list Document) :=
  fun w =>
    match Mongo.compile_filter f with
    | inl e => (Raised (exn_of e), log (Mongo.find f) w)
    | inr p => (Done (filter p (pdfs w)), log (Mongo.find f) w)
    end.

(** [db.pdfs.find_one(f)]: the first record that satisfies [f], or
    [None]. *)
Definition db_find_one (f : Mongo.filter) : M (option Document) :=
  fun w =>
    match Mongo.compile_filter f with
    | inl e => (Raised (exn_of e), log (Mongo.find_one f) w)
    | inr p => (Done (List.find p (pdfs w)), log (Mongo.find_one f) w)
    end.

(** [db.pdfs.insert_one(d)] *)
Definition db_insert_one (d : Document) : M unit :=
  fun w =>
    (Done tt,
     {| pdfs := pdfs w ++ [d];
        calls := calls w ++ [Mongo.insert_one d];
        admin_logged_in := admin_logged_in w;
        flashes := flashes w |}).

Definition flash (message category : string) : M unit :=
  fun w =>
    (Done tt,
     {| pdfs := pdfs w; calls := calls w;
        admin_logged_in := admin_logged_in w;
        flashes := flashes w ++ [(message, category)] |}).

(** [session.get('admin_logged_in')] *)
Definition session_admin : M bool := fun w => (Done (admin_logged_in w), w).

(** [for x in l: body(x)] *)
Fixpoint for_each {A} (l : list A) (body : A -> M unit) : M unit :=
  match l with
  | [] => ret tt
  | x :: rest => body x ;; for_each rest body
  end.

(** ** The handlers of [app.py] *)

Section App.

Import Mongo.

(** [slugify.slugify], the library function behind [generate_slug]:
    a function from the title to its slug. *)
Variable slugify : string -> string.

Definition generate_slug (title : string) : string := slugify title.

(** [@app.route('/<mode>/<subject>')] *)
Definition subject_page (mode subject : string) : M response :=
  let mode := lower mode in
  let subject := lower subject in
  if negb (valid_mode mode) || negb (valid_subject subject) then
    ret (render_template (error_html "Invalid Mode or Subject") 404)
  else
    pdfs <- db_find (All [(k_mode, Equals mode);
                          (k_subject, Equals subject)]) ;;
    ret (render_template (subject_html mode subject pdfs) 200).

(** [@app.route('/pdf/<subject>/<filename>')] *)
Definition pdf_view (subject filename : string) : M response :=
  let subject := lower subject in
  if negb (valid_subject subject) then
    ret (render_template (error_html "Invalid Subject") 404)
  else
    pdf <- db_find_one (All [(k_subject, Equals subject);
                             (k_filename, Equals filename)]) ;;
    match pdf with
    | None => ret (render_template (error_html "PDF not found") 404)
    | Some pdf => ret (render_template (pdf_view_html pdf) 200)
    end.

(** The decorator [admin_required]. *)
Definition admin_required (f : M response) : M response :=
  logged_in <- session_admin ;;
  if negb logged_in then
    flash "Please login to access this page." "warning" ;;
    ret (redirect to_login)
  else f.

(** The body of [upload], under the decorator. *)
Definition upload_body (method : string) (form : MultiDict) : M response :=
  if String.eqb method "POST" then
    let mode := lower (md_get form "mode" "") in
    let subject := lower (md_get form "subject" "") in
    let title := strip (md_get form "title" "") in
    let link := strip (md_get form "link" "") in
    let description := strip (md_get form "description" "") in
    let photo := strip (md_get form "photo" "") in
    let errors : list string := [] in
    let errors :=
      if negb (valid_mode mode)
      then (errors ++ ["Invalid mode selected."])%list else errors in
    let errors :=
      if negb (valid_subject subject)
      then (errors ++ ["Invalid subject selected."])%list else errors in
    let errors :=
      if negb (truthy title)
      then (errors ++ ["Title is required."])%list else errors in
    let errors :=
      if negb (truthy link)
      then (errors ++ ["Link is required."])%list else errors in
    match errors with
    | _ :: _ =>
        for_each errors (fun err => flash err "danger") ;;
        ret (render_template (upload_html (Some form)) 200)
    | [] =>
        let filename := generate_slug title in
        found <- db_find_one (All [(k_filename, Equals filename);
                                   (k_subject, Equals subject);
                                   (k_mode, Equals mode)]) ;;
        match found with
        | Some _ =>
            flash "A PDF with this title already exists for this subject and mode."
                  "danger" ;;
            ret (render_template (upload_html (Some form)) 200)
        | None =>
            let pdf_data :=
              {| mode := mode;
                 subject := subject;
                 title := title;
                 filename := filename;
                 link := link;
                 description := description;
                 photo := photo |} in
            db_insert_one pdf_data ;;
            flash "PDF metadata uploaded successfully!" "success" ;;
            ret (redirect (to_subject_page mode subject))
        end
    end
  else
    ret (render_template (upload_html None) 200).

(** [@app.route('/upload', methods=['GET', 'POST'])], [@admin_required] *)
Definition upload (method : string) (form : MultiDict) : M response :=
  admin_required (upload_body method form).

(** [@app.route('/search')], on [request.args] *)
Definition search (args : MultiDict) : M response :=
  let query := strip (md_get args "query" "") in
  if negb (truthy query) then
    ret (render_template (search_results_html [] query) 200)
  else
    let search_filter :=
      AnyOf [ [(k_title, RegexOpts query "i")];
              [(k_subject, RegexOpts query "i")];
              [(k_description, RegexOpts query "i")] ] in
    results <- db_find search_filter ;;
    ret (render_template (search_results_html results query) 200).

End App.

(** ** A slug function for the examples

    The theorems below hold for every [slugify].  [Slug.slugify_ascii]
    instantiates it where a concrete run is wanted.  It follows the steps
    of python-slugify under its default options (apostrophes to dashes,
    lowercase, commas between digits removed, every run of characters
    other than [-a-zA-Z0-9] replaced by one dash, dashes collapsed and
    trimmed) and agrees with the library on ASCII titles without [&];
    the library's transliteration of other code points and its decoding
    of HTML entity references are not embedded. *)

Module Slug.

Definition is_quote (c : ascii) : bool := Ascii.eqb c "'".
Definition is_dash (c : ascii) : bool := Ascii.eqb c "-".

Definition is_digit (c : ascii) : bool :=
  let n := N_of_ascii c in ((48 <=? n) && (n <=? 57))%N.

Definition allowed (c : ascii) : bool :=
  let n := N_of_ascii c in
  (is_dash c || is_digit c
   || (65 <=? n) && (n <=? 90) || (97 <=? n) && (n <=? 122))%N.

(** [re.sub] of a pattern [[...]+]: every maximal run of characters
    in the class becomes [rep]. *)
Fixpoint sub_runs (cls : ascii -> bool) (rep : string) (in_run : bool)
         (s : string) : string :=
  match s with
  | EmptyString => EmptyString
  | String c s' =>
      if cls c then
        if in_run then sub_runs cls rep true s'
        else rep ++ sub_runs cls rep true s'
      else String c (sub_runs cls rep false s')
  end.

(** [NUMBERS_PATTERN.sub('', text)]: a comma with a digit on either
    side is removed. *)
Fixpoint drop_digit_commas (after_digit : bool) (s : string) : string :=
  match s with
  | EmptyString => EmptyString
  | String c s' =>
      let before_digit :=
        match s' with
        | EmptyString => false
        | String d _ => is_digit d
        end in
      if Ascii.eqb c "," && after_digit && before_digit
      then drop_digit_commas false s'
      else String c (drop_digit_commas (is_digit c) s')
  end.

Fixpoint lstrip_dash (s : string) : string :=
  match s with
  | EmptyString => EmptyString
  | String c s' => if is_dash c then lstrip_dash s' else s
  end.

Fixpoint rstrip_dash (s : string) : string :=
  match s with
  | EmptyString => EmptyString
  | String c s' =>
      match rstrip_dash s' with
      | EmptyString => if is_dash c then EmptyString else String c EmptyString
      | r => String c r
      end
  end.

Definition slugify_ascii (text : string) : string :=
  let text := sub_runs is_quote "-" false text in
  let text := lower text in
  let text := sub_runs is_quote "" false text in
  let text := drop_digit_commas false text in
  let text := sub_runs (fun c => negb (allowed c)) "-" false text in
  let text := sub_runs is_dash "-" false text in
  rstrip_dash (lstrip_dash text).

End Slug.

(** ** The vocabulary of the specification *)

Module Spec.

(** Literal, case-insensitive occurrence of [needle] in [hay]. *)
Definition contains_ci (needle hay : string) : bool :=
  contains (lower needle) (lower hay).

(** A document matches a query literally when the query occurs in its
    title, subject or description. *)
Definition literal_match (q : string) (d : Document) : bool :=
  contains_ci q (title d) || contains_ci q (subject d)
  || contains_ci q (description d).

(** The fields that [search] looks into. *)
Definition searched_fields (d : Document) : list string :=
  [title d; subject d; description d].

(** The same, with the query read as a compiled regex. *)
Definition regex_match (r : Regex.regex) (d : Document) : bool :=
  Regex.search_in true r (title d) || Regex.search_in true r (subject d)
  || Regex.search_in true r (description d).

(** The validation rules of the upload workflow on a normalized
    submission, one message for each rule that is violated. *)
Definition violations (form : MultiDict) : list string :=
  ((if valid_mode (lower (md_get form "mode" ""))
    then [] else ["Invalid mode selected."])
   ++ (if valid_subject (lower (md_get form "subject" ""))
       then [] else ["Invalid subject selected."])
   ++ (if truthy (strip (md_get form "title" ""))
       then [] else ["Title is required."])
   ++ (if truthy (strip (md_get form "link" ""))
       then [] else ["Link is required."]))%list.

(** The uniqueness key of a record. *)
Definition has_key (m s f : string) (d : Document) : bool :=
  String.eqb (filename d) f && String.eqb (subject d) s
  && String.eqb (mode d) m.

(** The worlds a handler can leave behind. *)
Definition flashed (msgs : list (string * string)) (w : world) : world :=
  {| pdfs := pdfs w; calls := calls w;
     admin_logged_in := admin_logged_in w;
     flashes := flashes w ++ msgs |}.

Definition inserted (d : Document) (w : world) : world :=
  {| pdfs := pdfs w ++ [d]; calls := calls w ++ [Mongo.insert_one d];
     admin_logged_in := admin_logged_in w;
     flashes := flashes w |}.

Definition danger (msgs : list string) : list (string * string) :=
  map (fun m => (m, "danger")) msgs.

(** The normalized record of a submission, with its derived
    identifier. *)
Definition record_of (slugify : string -> string) (form : MultiDict)
  : Document :=
  {| mode := lower (md_get form "mode" "");
     subject := lower (md_get form "subject" "");
     title := strip (md_get form "title" "");
     filename := generate_slug slugify (strip (md_get form "title" ""));
     link := strip (md_get form "link" "");
     description := strip (md_get form "description" "");
     photo := strip (md_get form "photo" "") |}.

(** The filter of the uniqueness check for a record. *)
Definition key_filter (d : Document) : Mongo.filter :=
  Mongo.All [(Mongo.k_filename, Mongo.Equals (filename d));
             (Mongo.k_subject, Mongo.Equals (subject d));
             (Mongo.k_mode, Mongo.Equals (mode d))].

(** The filter that [search] builds for a trimmed query. *)
Definition search_filter (query : string) : Mongo.filter :=
  Mongo.AnyOf [ [(Mongo.k_title, Mongo.RegexOpts query "i")];
                [(Mongo.k_subject, Mongo.RegexOpts query "i")];
                [(Mongo.k_description, Mongo.RegexOpts query "i")] ].

Definition duplicate_message : string :=
  "A PDF with this title already exists for this subject and mode.".

Definition success_message : string :=
  "PDF metadata uploaded successfully!".

End Spec.

(** ** Sample data *)

Module Sample.

Definition chapter_1 : Document :=
  {| mode := "academic"; subject := "ict"; title := "Chapter 1";
     filename := "chapter-1"; link := "http://x";
     description := ""; photo := "" |}.

Definition optics : Document :=
  {| mode := "admission"; subject := "physics 2nd paper";
     title := "Optics"; filename := "optics"; link := "http://y";
     description := "Lenses and mirrors"; photo := "" |}.

Definition empty_store : world :=
  {| pdfs := []; calls := []; admin_logged_in := true; flashes := [] |}.

Definition seeded : world :=
  {| pdfs := [chapter_1; optics]; calls := [];
     admin_logged_in := true; flashes := [] |}.

Definition submission : MultiDict :=
  [("mode", "Academic"); ("subject", "ICT"); ("title", "Chapter 1");
   ("link", "http://x")].

End Sample.

(** ** Configuration ([config.py]) *)

(** The process environment after [load_dotenv()]. *)
Definition environ : Type := list (string * string).

(** [os.getenv(key, default)]; [default] is [None] when it is not
    given. *)
Fixpoint getenv (env : environ) (key : string) (default : option string)
  : option string :=
  match env with
  | [] => default
  | (k, v) :: rest =>
      if String.eqb k key then Some v else getenv rest key default
  end.

(** The class [Config]. *)
Record Config : Type :=
  { SECRET_KEY : option string;
    MONGO_URI : option string;
    DATABASE_NAME : option string;
    ADMIN_USERNAME : option string;
    ADMIN_PASSWORD : option string }.

Definition load_config (env : environ) : Config :=
  {| SECRET_KEY := getenv env "SECRET_KEY" (Some "devkey");
     MONGO_URI := getenv env "MONGO_URI" None;
     DATABASE_NAME := getenv env "DATABASE_NAME" None;
     ADMIN_USERNAME := getenv env "ADMIN_USERNAME" None;
     ADMIN_PASSWORD := getenv env "ADMIN_PASSWORD" None |}.

(** ** The other handlers of [app.py] *)

(** The templates and endpoints that only these handlers use; [handled]
    carries a response of the kinds above. *)
Inductive site_page : Type :=
| home_html (modes : list string)
| mode_html (mode : string) (subjects : list string)
| login_html.

Inductive site_endpoint : Type :=
| to_upload
| to_home.

Inductive site_response : Type :=
| handled (r : response)
| render_site (p : site_page) (status : nat)
| redirect_site (e : site_endpoint).

(** [session['admin_logged_in'] = True] and
    [session.pop('admin_logged_in', None)]. *)
Definition session_set (b : bool) : M unit :=
  fun w =>
    (Done tt,
     {| pdfs := pdfs w; calls := calls w;
        admin_logged_in := b; flashes := flashes w |}).

(** [s == v] for a string [s] and a configuration value, which is
    [None] when the variable is not set. *)
Definition str_is (s : string) (v : option string) : bool :=
  match v with
  | Some t => String.eqb s t
  | None => false
  end.

(** [@app.route('/')] *)
Definition home : M site_response :=
  ret (render_site (home_html MODES) 200).

(** [@app.route('/<mode>')] *)
Definition mode_page (mode : string) : M site_response :=
  let mode := lower mode in
  if negb (valid_mode mode) then
    ret (handled (render_template (error_html "Invalid Mode") 404))
  else
    ret (render_site (mode_html mode SUBJECTS) 200).

(** [@app.route('/login', methods=['GET', 'POST'])] *)
Definition login (config : Config) (method : string) (form : MultiDict)
  : M site_response :=
  if String.eqb method "POST" then
    let username := strip (md_get form "username" "") in
    let password := strip (md_get form "password" "") in
    if str_is username (ADMIN_USERNAME config)
       && str_is password (ADMIN_PASSWORD config)
    then
      session_set true ;;
      flash "Logged in successfully." "success" ;;
      ret (redirect_site to_upload)
    else
      flash "Invalid credentials." "danger" ;;
      ret (render_site login_html 200)
  else
    ret (render_site login_html 200).

(** [@app.route('/logout')] *)
Definition logout : M site_response :=
  session_set false ;;
  flash "Logged out." "info" ;;
  ret (redirect_site to_home).

(** ** The routing table *)

(** One constructor for each [@app.route]; the static rules [/login],
    [/logout], [/upload] and [/search] are separate from [/<mode>]. *)
Inductive request : Type :=
| req_home
| req_mode (mode : string)
| req_subject (mode subject : string)
| req_pdf (subject filename : string)
| req_login (method : string) (form : MultiDict)
| req_logout
| req_upload (method : string) (form : MultiDict)
| req_search (args : MultiDict).

Definition lift (m : M response) : M site_response :=
  r <- m ;; ret (handled r).

Definition dispatch (config : Config) (slugify : string -> string)
           (r : request) : M site_response :=
  match r with
  | req_home => home
  | req_mode m => mode_page m
  | req_subject m s => lift (subject_page m s)
  | req_pdf s fn => lift (pdf_view s fn)
  | req_login method form => login config method form
  | req_logout => logout
  | req_upload method form => lift (upload slugify method form)
  | req_search args => lift (search args)
  end.

(** The world after a sequence of requests of one session, a request
    that raises leaving the world as it was when it raised. *)
Fixpoint serve (config : Config) (slugify : string -> string)
         (reqs : list request) (w : world) : world :=
  match reqs with
  | [] => w
  | r :: rest =>
      serve config slugify rest (snd (dispatch config slugify r w))
  end.

(** ** Predicates on stores and requests *)

Module Inv.

(** The uniqueness key of a record. *)
Definition key_of (d : Document) : string * string * string :=
  (mode d, subject d, filename d).

(** What [upload] guarantees of a record it stores. *)
Definition well_formed (slugify : string -> string) (d : Document) : Prop :=
  In (mode d) MODES
  /\ In (subject d) SUBJECTS
  /\ title d <> "" /\ strip (title d) = title d
  /\ link d <> "" /\ strip (link d) = link d
  /\ strip (description d) = description d
  /\ strip (photo d) = photo d
  /\ filename d = generate_slug slugify (title d).

(** A login request that carries the configured credentials. *)
Definition opens_session (config : Config) (r : request) : bool :=
  match r with
  | req_login method form =>
      String.eqb method "POST"
      && str_is (strip (md_get form "username" "")) (ADMIN_USERNAME config)
      && str_is (strip (md_get form "password" "")) (ADMIN_PASSWORD config)
  | _ => false
  end.

(** The requests that only read: every route but [/login], [/logout]
    and [/upload]. *)
Definition read_only (r : request) : bool :=
  match r with
  | req_login _ _ | req_logout | req_upload _ _ => false
  | _ => true
  end.

Definition is_upload (r : request) : bool :=
  match r with
  | req_upload _ _ => true
  | _ => false
  end.

(** [l1] is an initial segment of [l2]. *)
Definition extends {A} (l1 l2 : list A) : Prop :=
  exists more, l2 = (l1 ++ more)%list.

End Inv.

(** * Properties *)

Local Open Scope list_scope.

(** ** Strings *)

Module PyStrFacts.

Lemma lower_char_idem (c : ascii) : lower_char (lower_char c) = lower_char c.
Proof.
  destruct c as [[] [] [] [] [] [] [] []]; vm_compute; reflexivity.
Qed.

Lemma lower_idem (s : string) : lower (lower s) = lower s.
Proof.
  induction s as [|c s IH]; simpl; [reflexivity|].
  now rewrite lower_char_idem, IH.
Qed.

Lemma truthy_false (s : string) : truthy s = false <-> s = "".
Proof. destruct s; simpl; split; congruence. Qed.

Lemma truthy_true (s : string) : truthy s = true <-> s <> "".
Proof. destruct s; simpl; split; congruence. Qed.

Lemma rstrip_cons (c : ascii) (s : string) :
  rstrip (String c s) =
  if isspace c && negb (truthy (rstrip s)) then "" else String c (rstrip s).
Proof.
  simpl. destruct (rstrip s); simpl.
  - rewrite andb_true_r. reflexivity.
  - rewrite andb_false_r. reflexivity.
Qed.

Lemma rstrip_idem (s : string) : rstrip (rstrip s) = rstrip s.
Proof.
  induction s as [|c s IH]; [reflexivity|].
  rewrite rstrip_cons.
  destruct (isspace c && negb (truthy (rstrip s))) eqn:E; [reflexivity|].
  rewrite rstrip_cons, IH, E. reflexivity.
Qed.

Lemma lstrip_left_clean (s : string) : left_clean (lstrip s) = true.
Proof.
  induction s as [|c s IH]; simpl; [reflexivity|].
  destruct (isspace c) eqn:E; [exact IH|]. simpl. now rewrite E.
Qed.

Lemma lstrip_of_left_clean (s : string) :
  left_clean s = true -> lstrip s = s.
Proof.
  destruct s as [|c s]; simpl; [reflexivity|].
  destruct (isspace c); [discriminate|reflexivity].
Qed.

Lemma rstrip_left_clean (s : string) :
  left_clean s = true -> left_clean (rstrip s) = true.
Proof.
  destruct s as [|c s]; [reflexivity|].
  rewrite rstrip_cons. simpl. intros H.
  apply negb_true_iff in H. rewrite H. simpl. now rewrite H.
Qed.

Lemma strip_idem (s : string) : strip (strip s) = strip s.
Proof.
  unfold strip.
  rewrite (lstrip_of_left_clean (rstrip (lstrip s))).
  - apply rstrip_idem.
  - apply rstrip_left_clean, lstrip_left_clean.
Qed.

Lemma lstrip_whitespace_only (s : string) :
  whitespace_only s = true -> lstrip s = "".
Proof.
  induction s as [|c s IH]; simpl; [reflexivity|].
  intros H. apply andb_true_iff in H as [Hc Hs]. rewrite Hc. auto.
Qed.

Lemma strip_whitespace_only (s : string) :
  whitespace_only s = true -> strip s = "".
Proof.
  intros H. unfold strip. now rewrite lstrip_whitespace_only.
Qed.

Lemma str_in_In (x : string) (l : list string) :
  str_in x l = true <-> In x l.
Proof.
  unfold str_in. rewrite existsb_exists. split.
  - intros [y [Hy E]]. apply String.eqb_eq in E. now subst.
  - intros H. exists x. split; [assumption|apply String.eqb_refl].
Qed.

Lemma str_in_not_In (x : string) (l : list string) :
  str_in x l = false <-> ~ In x l.
Proof.
  rewrite <- str_in_In. destruct (str_in x l); split; congruence.
Qed.

End PyStrFacts.
Import PyStrFacts.

Lemma valid_mode_lower (m : string) :
  valid_mode (lower m) = true <-> In (lower m) MODES.
Proof. unfold valid_mode. rewrite lower_idem. apply str_in_In. Qed.

Lemma valid_subject_lower (s : string) :
  valid_subject (lower s) = true <-> In (lower s) SUBJECTS.
Proof. unfold valid_subject. rewrite lower_idem. apply str_in_In. Qed.

Lemma invalid_mode_lower (m : string) :
  valid_mode (lower m) = false <-> ~ In (lower m) MODES.
Proof. unfold valid_mode. rewrite lower_idem. apply str_in_not_In. Qed.

Lemma invalid_subject_lower (s : string) :
  valid_subject (lower s) = false <-> ~ In (lower s) SUBJECTS.
Proof. unfold valid_subject. rewrite lower_idem. apply str_in_not_In. Qed.

(** ** Catalog queries: [subject_page] and [pdf_view] *)

Section Catalog.

Import Mongo.

(** The records that [subject_page] selects, in store order. *)
Lemma subject_page_valid (m s : string) (w : world) :
  In (lower m) MODES -> In (lower s) SUBJECTS ->
  subject_page m s w =
  (Done (render_template
           (subject_html (lower m) (lower s)
              (List.filter
                 (fun d => String.eqb (mode d) (lower m)
                           && (String.eqb (subject d) (lower s) && true))
                      (pdfs w)))
           200),
   log (find (All [(k_mode, Equals (lower m));
                   (k_subject, Equals (lower s))])) w).
Proof.
  intros Hm Hs. unfold subject_page.
  apply valid_mode_lower in Hm. apply valid_subject_lower in Hs.
  rewrite Hm, Hs. reflexivity.
Qed.

Lemma subject_page_invalid (m s : string) (w : world) :
  ~ In (lower m) MODES \/ ~ In (lower s) SUBJECTS ->
  subject_page m s w =
  (Done (render_template (error_html "Invalid Mode or Subject") 404), w).
Proof.
  intros H. unfold subject_page.
  destruct H as [H|H].
  - apply invalid_mode_lower in H. rewrite H. reflexivity.
  - apply invalid_subject_lower in H. rewrite H, orb_true_r. reflexivity.
Qed.

Lemma pdf_view_invalid (s fn : string) (w : world) :
  ~ In (lower s) SUBJECTS ->
  pdf_view s fn w =
  (Done (render_template (error_html "Invalid Subject") 404), w).
Proof.
  intros H. unfold pdf_view.
  apply invalid_subject_lower in H. rewrite H. reflexivity.
Qed.

Lemma pdf_view_valid (s fn : string) (w : world) :
  In (lower s) SUBJECTS ->
  pdf_view s fn w =
  (Done match List.find (fun d => String.eqb (subject d) (lower s)
                                  && (String.eqb (filename d) fn && true))
                        (pdfs w) with
        | Some pdf => render_template (pdf_view_html pdf) 200
        | None => render_template (error_html "PDF not found") 404
        end,
   log (find_one (All [(k_subject, Equals (lower s));
                       (k_filename, Equals fn)])) w).
Proof.
  intros H. unfold pdf_view.
  apply valid_subject_lower in H. rewrite H. simpl.
  unfold bind, db_find_one. simpl.
  destruct (List.find _ (pdfs w)); reflexivity.
Qed.

End Catalog.

(** C4. For a mode of [MODES] and a subject of [SUBJECTS], both taken
    case-insensitively, [subject_page] renders exactly the stored records
    whose [mode] and [subject] equal the lowercased inputs: every such
    record and no other, in store order, the store itself unchanged. *)
Theorem subject_page_lists_exactly (m s : string) (w : world) :
  In (lower m) MODES ->
  In (lower s) SUBJECTS ->
  exists results w',
    subject_page m s w =
    (Done (render_template (subject_html (lower m) (lower s) results) 200), w')
    /\ pdfs w' = pdfs w
    /\ results = filter (fun d => String.eqb (mode d) (lower m)
                                  && String.eqb (subject d) (lower s))
                        (pdfs w)
    /\ forall d, In d results <->
                 In d (pdfs w) /\ mode d = lower m /\ subject d = lower s.
Proof.
  intros Hm Hs. eexists. eexists.
  split; [apply (subject_page_valid m s w Hm Hs)|].
  split; [reflexivity|]. split.
  - apply filter_ext. intros d. now rewrite andb_true_r.
  - intros d. rewrite filter_In, andb_true_r, andb_true_iff.
    rewrite !String.eqb_eq. tauto.
Qed.

Lemma subject_page_lists_exactly_witness :
  exists results w',
    subject_page "Academic" "ICT" Sample.seeded =
    (Done (render_template (subject_html "academic" "ict" results) 200), w')
    /\ pdfs w' = pdfs Sample.seeded
    /\ results = [Sample.chapter_1]
    /\ forall d, In d results <->
                 In d (pdfs Sample.seeded)
                 /\ mode d = "academic" /\ subject d = "ict".
Proof.
  destruct (subject_page_lists_exactly "Academic" "ICT" Sample.seeded)
    as (results & w' & H1 & H2 & H3 & H4).
  - simpl. tauto.
  - simpl. tauto.
  - exists results, w'.
    split; [exact H1|]. split; [exact H2|]. split; [exact H3|exact H4].
Defined.

(** C5. When the lowercased mode is not in [MODES] or the lowercased
    subject is not in [SUBJECTS], [subject_page] answers with the error
    page "Invalid Mode or Subject" and status 404; it renders no result
    list and makes no call on the store. *)
Theorem subject_page_invalid_selector (m s : string) (w : world) :
  ~ In (lower m) MODES \/ ~ In (lower s) SUBJECTS ->
  subject_page m s w =
  (Done (render_template (error_html "Invalid Mode or Subject") 404), w)
  /\ forall results st w',
       subject_page m s w <>
       (Done (render_template (subject_html (lower m) (lower s) results) st),
        w').
Proof.
  intros H. rewrite (subject_page_invalid m s w H).
  split; [reflexivity|]. intros results st w' E. discriminate E.
Qed.

Lemma subject_page_invalid_selector_witness :
  subject_page "Medical" "ICT" Sample.seeded =
  (Done (render_template (error_html "Invalid Mode or Subject") 404),
   Sample.seeded)
  /\ subject_page "academic" "history" Sample.seeded =
     (Done (render_template (error_html "Invalid Mode or Subject") 404),
      Sample.seeded).
Proof.
  split.
  - apply (subject_page_invalid_selector "Medical" "ICT" Sample.seeded).
    left. simpl. intros [H|[H|[]]]; discriminate H.
  - apply (subject_page_invalid_selector "academic" "history" Sample.seeded).
    right. simpl. intuition discriminate.
Defined.

(** C6. [pdf_view] answers "Invalid Subject" (404) when the lowercased
    subject is not in [SUBJECTS].  With a valid subject it answers "PDF
    not found" (404) exactly when no stored record has that subject and
    filename, and otherwise renders a stored record whose [subject] and
    [filename] are the ones looked up. *)
Theorem pdf_view_lookup (s fn : string) (w : world) :
  (~ In (lower s) SUBJECTS ->
   pdf_view s fn w =
   (Done (render_template (error_html "Invalid Subject") 404), w))
  /\ (In (lower s) SUBJECTS ->
      (fst (pdf_view s fn w) =
       Done (render_template (error_html "PDF not found") 404)
       <-> forall d, In d (pdfs w) ->
                     ~ (subject d = lower s /\ filename d = fn))
      /\ (fst (pdf_view s fn w) =
          Done (render_template (error_html "PDF not found") 404)
          \/ exists pdf,
               fst (pdf_view s fn w) =
               Done (render_template (pdf_view_html pdf) 200)
               /\ In pdf (pdfs w)
               /\ subject pdf = lower s /\ filename pdf = fn)).
Proof.
  split; [apply pdf_view_invalid|].
  intros Hs. rewrite (pdf_view_valid s fn w Hs). simpl.
  destruct (find _ (pdfs w)) as [pdf|] eqn:F.
  - apply find_some in F as [Hin Hp].
    rewrite andb_true_r, andb_true_iff, !String.eqb_eq in Hp.
    split.
    + split; [discriminate|].
      intros H. exfalso. exact (H pdf Hin Hp).
    + right. exists pdf. tauto.
  - split; [|now left].
    split; [|reflexivity].
    intros _ d Hin [H1 H2].
    pose proof (find_none _ _ F d Hin) as Hp. simpl in Hp.
    apply String.eqb_eq in H1, H2. rewrite H1, H2 in Hp. discriminate Hp.
Qed.

Lemma pdf_view_lookup_witness :
  pdf_view "Optics" "optics" Sample.seeded =
  (Done (render_template (error_html "Invalid Subject") 404), Sample.seeded)
  /\ fst (pdf_view "ICT" "chapter-1" Sample.seeded) =
     Done (render_template (pdf_view_html Sample.chapter_1) 200)
  /\ fst (pdf_view "ICT" "optics" Sample.seeded) =
     Done (render_template (error_html "PDF not found") 404).
Proof.
  split; [|split].
  - apply (pdf_view_lookup "Optics" "optics" Sample.seeded).
    simpl. intuition discriminate.
  - destruct (pdf_view_lookup "ICT" "chapter-1" Sample.seeded) as [_ H].
    destruct H as [_ [H|[pdf [H _]]]]; [simpl; tauto| |].
    + discriminate H.
    + reflexivity.
  - destruct (pdf_view_lookup "ICT" "optics" Sample.seeded) as [_ H].
    destruct H as [H _]; [simpl; tauto|].
    apply H. simpl. intros d [<-|[<-|[]]] [H1 H2]; discriminate.
Defined.

(** C9. In [pdf_view] the subject is lowercased before the lookup and
    the filename is passed to the store exactly as supplied: with a valid
    subject, a request whose filename differs from every stored filename,
    be it only in letter case, is answered "PDF not found" (404). *)
Theorem pdf_view_filename_exact (s fn : string) (w : world) :
  In (lower s) SUBJECTS ->
  (forall d, In d (pdfs w) -> filename d <> fn) ->
  pdf_view s fn w =
  (Done (render_template (error_html "PDF not found") 404),
   log (Mongo.find_one
          (Mongo.All [(Mongo.k_subject, Mongo.Equals (lower s));
                      (Mongo.k_filename, Mongo.Equals fn)])) w).
Proof.
  intros Hs Hfn. rewrite (pdf_view_valid s fn w Hs).
  destruct (find _ (pdfs w)) as [pdf|] eqn:F; [|reflexivity].
  apply find_some in F as [Hin Hp].
  rewrite andb_true_r, andb_true_iff, !String.eqb_eq in Hp.
  exfalso. exact (Hfn pdf Hin (proj2 Hp)).
Qed.

Lemma pdf_view_filename_exact_witness :
  pdf_view "ICT" "Chapter-1" Sample.seeded =
  (Done (render_template (error_html "PDF not found") 404),
   log (Mongo.find_one
          (Mongo.All [(Mongo.k_subject, Mongo.Equals "ict");
                      (Mongo.k_filename, Mongo.Equals "Chapter-1")]))
       Sample.seeded).
Proof.
  apply (pdf_view_filename_exact "ICT" "Chapter-1" Sample.seeded).
  - simpl. tauto.
  - simpl. intros d [<-|[<-|[]]]; discriminate.
Defined.

(** ** Lists *)

Lemma find_ext_eq {A} (f g : A -> bool) (l : list A) :
  (forall x, f x = g x) -> find f l = find g l.
Proof.
  intros H. induction l as [|x l IH]; [reflexivity|].
  simpl. now rewrite H, IH.
Qed.

Lemma find_append {A} (f : A -> bool) (l l' : list A) :
  find f (l ++ l') =
  match find f l with
  | Some x => Some x
  | None => find f l'
  end.
Proof.
  induction l as [|x l IH]; [reflexivity|].
  simpl. destruct (f x); [reflexivity|exact IH].
Qed.

(** ** The upload workflow *)

Section Upload.

Variable slugify : string -> string.

Lemma flashed_nil (w : world) : Spec.flashed [] w = w.
Proof. destruct w. unfold Spec.flashed. simpl. now rewrite app_nil_r. Qed.

Lemma flashed_flashed (a b : list (string * string)) (w : world) :
  Spec.flashed b (Spec.flashed a w) = Spec.flashed (a ++ b) w.
Proof. unfold Spec.flashed. simpl. now rewrite app_assoc. Qed.

Lemma for_each_flash (msgs : list string) (w : world) :
  for_each msgs (fun err => flash err "danger") w =
  (Done tt, Spec.flashed (Spec.danger msgs) w).
Proof.
  revert w. induction msgs as [|m msgs IH]; intros w.
  - simpl. now rewrite flashed_nil.
  - change (for_each (m :: msgs) (fun err => flash err "danger") w)
      with (for_each msgs (fun err => flash err "danger")
              (Spec.flashed [(m, "danger")] w)).
    rewrite IH, flashed_flashed. reflexivity.
Qed.

(** The list [errors] that [upload] builds is the list of violations,
    and the handler branches on it. *)
Lemma upload_body_post (form : MultiDict) :
  upload_body slugify "POST" form =
  match Spec.violations form with
  | _ :: _ =>
      for_each (Spec.violations form) (fun err => flash err "danger") ;;
      ret (render_template (upload_html (Some form)) 200)
  | [] =>
      let d := Spec.record_of slugify form in
      found <- db_find_one (Spec.key_filter d) ;;
      match found with
      | Some _ =>
          flash Spec.duplicate_message "danger" ;;
          ret (render_template (upload_html (Some form)) 200)
      | None =>
          db_insert_one d ;;
          flash Spec.success_message "success" ;;
          ret (redirect (to_subject_page (mode d) (subject d)))
      end
  end.
Proof.
  unfold upload_body, Spec.violations. rewrite String.eqb_refl. cbv zeta.
  destruct (valid_mode (lower (md_get form "mode" "")));
    destruct (valid_subject (lower (md_get form "subject" "")));
    destruct (truthy (strip (md_get form "title" "")));
    destruct (truthy (strip (md_get form "link" "")));
    reflexivity.
Qed.

Lemma admin_required_logged_in (f : M response) (w : world) :
  admin_logged_in w = true -> admin_required f w = f w.
Proof.
  intros H. unfold admin_required, bind, session_admin. now rewrite H.
Qed.

(** ValidationFailed: every violation is flashed, the form is rendered
    again with the submission as sent, and the store is not touched. *)
Lemma upload_validation_failed (form : MultiDict) (w : world) :
  admin_logged_in w = true ->
  Spec.violations form <> [] ->
  upload slugify "POST" form w =
  (Done (render_template (upload_html (Some form)) 200),
   Spec.flashed (Spec.danger (Spec.violations form)) w).
Proof.
  intros Hadm Hv. unfold upload.
  rewrite (admin_required_logged_in _ _ Hadm), upload_body_post.
  destruct (Spec.violations form) as [|v vs] eqn:E; [congruence|].
  unfold bind. rewrite for_each_flash. reflexivity.
Qed.

(** A valid submission: DuplicateExists when the store holds a record
    with the submission's key, Created otherwise. *)
Lemma upload_checked (form : MultiDict) (w : world) :
  admin_logged_in w = true ->
  Spec.violations form = [] ->
  let d := Spec.record_of slugify form in
  let w1 := log (Mongo.find_one (Spec.key_filter d)) w in
  upload slugify "POST" form w =
  match find (Spec.has_key (mode d) (subject d) (filename d)) (pdfs w) with
  | Some _ =>
      (Done (render_template (upload_html (Some form)) 200),
       Spec.flashed [(Spec.duplicate_message, "danger")] w1)
  | None =>
      (Done (redirect (to_subject_page (mode d) (subject d))),
       Spec.flashed [(Spec.success_message, "success")]
                    (Spec.inserted d w1))
  end.
Proof.
  intros Hadm Hv d w1. unfold upload.
  rewrite (admin_required_logged_in _ _ Hadm), upload_body_post, Hv.
  cbv zeta. fold d. unfold bind at 1.
  unfold db_find_one, Spec.key_filter. simpl Mongo.compile_filter. cbv iota beta.
  rewrite (find_ext_eq _ (Spec.has_key (mode d) (subject d) (filename d))
                       (pdfs w)).
  - destruct (find _ (pdfs w)); reflexivity.
  - intros x. unfold Mongo.holds, Spec.has_key. simpl.
    now rewrite andb_true_r, andb_assoc.
Qed.

End Upload.

(** C3. Validation accumulates every violation: whenever a submission
    violates some rule, [upload] flashes one message for each violated
    rule, renders the form again with the submission as sent, and leaves
    the store as it was, without any call on it.  With a valid mode and
    subject but an empty title and an empty link (after trimming), the
    messages are exactly "Title is required." and "Link is required.". *)
Theorem upload_validation_accumulates
        (slugify : string -> string) (form : MultiDict) (w : world) :
  admin_logged_in w = true ->
  Spec.violations form <> [] ->
  let w' := Spec.flashed (Spec.danger (Spec.violations form)) w in
  upload slugify "POST" form w =
  (Done (render_template (upload_html (Some form)) 200), w')
  /\ pdfs w' = pdfs w
  /\ calls w' = calls w
  /\ (valid_mode (lower (md_get form "mode" "")) = true ->
      valid_subject (lower (md_get form "subject" "")) = true ->
      strip (md_get form "title" "") = "" ->
      strip (md_get form "link" "") = "" ->
      Spec.violations form = ["Title is required."; "Link is required."]).
Proof.
  intros Hadm Hv w'. split; [|split; [|split]].
  - apply upload_validation_failed; assumption.
  - reflexivity.
  - reflexivity.
  - intros Hm Hs Ht Hl. unfold Spec.violations.
    rewrite Hm, Hs, Ht, Hl. reflexivity.
Qed.

Lemma upload_validation_accumulates_witness :
  let form := [("mode", "Academic"); ("subject", "ICT");
               ("title", "   "); ("link", "")] in
  upload Slug.slugify_ascii "POST" form Sample.seeded =
  (Done (render_template (upload_html (Some form)) 200),
   Spec.flashed [("Title is required.", "danger");
                 ("Link is required.", "danger")] Sample.seeded)
  /\ Spec.violations form = ["Title is required."; "Link is required."].
Proof.
  intros form.
  destruct (upload_validation_accumulates Slug.slugify_ascii form Sample.seeded)
    as (H1 & _ & _ & H4).
  - reflexivity.
  - vm_compute. discriminate.
  - split; [exact H1|].
    apply H4; reflexivity.
Defined.

(** C2. From a store without a record of key (academic, ict, chapter-1),
    the submission mode "Academic", subject "ICT", title "Chapter 1" with
    a link that is non-empty after trimming succeeds: exactly one record
    is appended, with mode "academic", subject "ict" and filename
    "chapter-1", and the handler redirects to that subject page.  The
    same submission sent again ends in DuplicateExists: the duplicate
    message is flashed and the store keeps the records it had.  The slug
    library is taken to map "Chapter 1" to "chapter-1". *)
Theorem upload_once_then_duplicate
        (slugify : string -> string) (form : MultiDict) (w : world) :
  admin_logged_in w = true ->
  slugify "Chapter 1" = "chapter-1" ->
  md_get form "mode" "" = "Academic" ->
  md_get form "subject" "" = "ICT" ->
  md_get form "title" "" = "Chapter 1" ->
  strip (md_get form "link" "") <> "" ->
  (forall d, In d (pdfs w) ->
             ~ (mode d = "academic" /\ subject d = "ict"
                /\ filename d = "chapter-1")) ->
  exists d w1 w2,
    upload slugify "POST" form w =
    (Done (redirect (to_subject_page "academic" "ict")), w1)
    /\ pdfs w1 = pdfs w ++ [d]
    /\ mode d = "academic" /\ subject d = "ict" /\ filename d = "chapter-1"
    /\ title d = "Chapter 1" /\ link d = strip (md_get form "link" "")
    /\ upload slugify "POST" form w1 =
       (Done (render_template (upload_html (Some form)) 200), w2)
    /\ pdfs w2 = pdfs w1
    /\ flashes w2 = flashes w1 ++ [(Spec.duplicate_message, "danger")].
Proof.
  intros Hadm Hslug Hm Hs Ht Hl Hfresh.
  assert (Hv : Spec.violations form = []).
  { unfold Spec.violations. rewrite Hm, Hs, Ht.
    apply truthy_true in Hl. rewrite Hl. reflexivity. }
  assert (Hd : Spec.record_of slugify form =
               {| mode := "academic"; subject := "ict"; title := "Chapter 1";
                  filename := "chapter-1";
                  link := strip (md_get form "link" "");
                  description := strip (md_get form "description" "");
                  photo := strip (md_get form "photo" "") |}).
  { unfold Spec.record_of, generate_slug. rewrite Hm, Hs, Ht.
    change (strip "Chapter 1") with "Chapter 1". rewrite Hslug. reflexivity. }
  set (d := {| mode := "academic"; subject := "ict"; title := "Chapter 1";
               filename := "chapter-1";
               link := strip (md_get form "link" "");
               description := strip (md_get form "description" "");
               photo := strip (md_get form "photo" "") |}) in Hd.
  set (has_d := Spec.has_key "academic" "ict" "chapter-1").
  assert (F : find has_d (pdfs w) = None).
  { destruct (find has_d (pdfs w)) as [x|] eqn:F; [|reflexivity].
    apply find_some in F as [Hin Hk]. unfold has_d, Spec.has_key in Hk.
    rewrite !andb_true_iff, !String.eqb_eq in Hk.
    exfalso. apply (Hfresh x Hin). tauto. }
  set (w0 := log (Mongo.find_one (Spec.key_filter d)) w).
  set (w1 := Spec.flashed [(Spec.success_message, "success")]
                          (Spec.inserted d w0)).
  set (w2 := Spec.flashed [(Spec.duplicate_message, "danger")]
                          (log (Mongo.find_one (Spec.key_filter d)) w1)).
  exists d, w1, w2.
  split.
  { rewrite (upload_checked slugify form w Hadm Hv). cbv zeta. rewrite Hd.
    change (find _ (pdfs w)) with (find has_d (pdfs w)). rewrite F.
    reflexivity. }
  split; [reflexivity|].
  do 5 (split; [reflexivity|]).
  split; [|split; reflexivity].
  rewrite (upload_checked slugify form w1 Hadm Hv). cbv zeta. rewrite Hd.
  change (find _ (pdfs w1)) with (find has_d (pdfs w ++ [d])).
  rewrite find_append, F. reflexivity.
Qed.

Lemma upload_once_then_duplicate_witness :
  exists d w1 w2,
    upload Slug.slugify_ascii "POST" Sample.submission Sample.empty_store =
    (Done (redirect (to_subject_page "academic" "ict")), w1)
    /\ pdfs w1 = [d]
    /\ d = Sample.chapter_1
    /\ upload Slug.slugify_ascii "POST" Sample.submission w1 =
       (Done (render_template (upload_html (Some Sample.submission)) 200), w2)
    /\ pdfs w2 = pdfs w1.
Proof.
  destruct (upload_once_then_duplicate
              Slug.slugify_ascii Sample.submission Sample.empty_store)
    as (d & w1 & w2 & H1 & H2 & _ & _ & _ & _ & _ & H8 & H9 & _).
  - reflexivity.
  - reflexivity.
  - reflexivity.
  - reflexivity.
  - reflexivity.
  - vm_compute. discriminate.
  - simpl. intros d [].
  - exists d, w1, w2.
    split; [exact H1|]. split; [exact H2|].
    split; [|split; [exact H8|exact H9]].
    vm_compute in H1. vm_compute in H2.
    injection H1 as <-. simpl in H2. injection H2 as <-. reflexivity.
Defined.

(** C8. The slug is a function of the title alone: equal titles have
    equal slugs; a valid submission that passes the uniqueness check
    stores, in whatever world it runs, the record whose filename is the
    slug of its trimmed title; and a valid submission whose slug
    coincides with the slug of another title already stored under the
    same mode and subject is refused as a duplicate, the store keeping
    its records. *)
Theorem slug_function_of_title (slugify : string -> string) :
  (forall t1 t2, t1 = t2 ->
                 generate_slug slugify t1 = generate_slug slugify t2)
  /\ (forall form w,
        admin_logged_in w = true ->
        Spec.violations form = [] ->
        (forall x, In x (pdfs w) ->
                   Spec.has_key (lower (md_get form "mode" ""))
                                (lower (md_get form "subject" ""))
                                (generate_slug slugify
                                   (strip (md_get form "title" ""))) x
                   = false) ->
        exists d,
          pdfs (snd (upload slugify "POST" form w)) = pdfs w ++ [d]
          /\ filename d =
             generate_slug slugify (strip (md_get form "title" ""))
          /\ d = Spec.record_of slugify form)
  /\ (forall form w x t1,
        admin_logged_in w = true ->
        Spec.violations form = [] ->
        In x (pdfs w) ->
        mode x = lower (md_get form "mode" "") ->
        subject x = lower (md_get form "subject" "") ->
        filename x = generate_slug slugify t1 ->
        generate_slug slugify t1 =
        generate_slug slugify (strip (md_get form "title" "")) ->
        upload slugify "POST" form w =
        (Done (render_template (upload_html (Some form)) 200),
         Spec.flashed [(Spec.duplicate_message, "danger")]
           (log (Mongo.find_one
                   (Spec.key_filter (Spec.record_of slugify form))) w))).
Proof.
  split; [|split].
  - intros t1 t2 E. now rewrite E.
  - intros form w Hadm Hv Hfresh.
    exists (Spec.record_of slugify form).
    rewrite (upload_checked slugify form w Hadm Hv). cbv zeta.
    destruct (find _ (pdfs w)) as [x|] eqn:F.
    + apply find_some in F as [Hin Hk]. simpl in Hk.
      rewrite (Hfresh x Hin) in Hk. discriminate Hk.
    + split; [reflexivity|]. split; reflexivity.
  - intros form w x t1 Hadm Hv Hin Hm Hs Hf Hslug.
    rewrite (upload_checked slugify form w Hadm Hv). cbv zeta.
    destruct (find _ (pdfs w)) as [y|] eqn:F; [reflexivity|].
    pose proof (find_none _ _ F x Hin) as Hk.
    unfold Spec.has_key in Hk. simpl in Hk.
    rewrite Hm, Hs, Hf, Hslug, !String.eqb_refl in Hk. discriminate Hk.
Qed.

Lemma slug_function_of_title_witness :
  let form := [("mode", "academic"); ("subject", "ict");
               ("title", "chapter 1!"); ("link", "http://z")] in
  generate_slug Slug.slugify_ascii "Chapter 1" =
  generate_slug Slug.slugify_ascii "chapter 1!"
  /\ upload Slug.slugify_ascii "POST" form Sample.seeded =
     (Done (render_template (upload_html (Some form)) 200),
      Spec.flashed [(Spec.duplicate_message, "danger")]
        (log (Mongo.find_one
                (Spec.key_filter (Spec.record_of Slug.slugify_ascii form)))
             Sample.seeded)).
Proof.
  intros form. split; [reflexivity|].
  apply (proj2 (proj2 (slug_function_of_title Slug.slugify_ascii))
           form Sample.seeded Sample.chapter_1 "Chapter 1").
  - reflexivity.
  - reflexivity.
  - simpl. tauto.
  - reflexivity.
  - reflexivity.
  - reflexivity.
  - reflexivity.
Defined.

(** ** The regex engine decides its semantics *)

Module RegexSemantics.

Import Regex.
Local Open Scope string_scope.

Lemma append_empty (s1 s2 : string) : s1 ++ s2 = "" -> s1 = "" /\ s2 = "".
Proof. destruct s1; simpl; [auto|discriminate]. Qed.

Lemma append_empty_r (s : string) : s ++ "" = s.
Proof. induction s as [|c s IH]; simpl; [reflexivity|now rewrite IH]. Qed.

Lemma nullable_Matches (cl : bool) (r : regex) :
  nullable r = true -> Matches cl r "".
Proof.
  induction r; simpl; intros H; try discriminate H.
  - constructor.
  - apply andb_true_iff in H as [H1 H2].
    change "" with ("" ++ ""). constructor; auto.
  - apply orb_true_iff in H as [H|H]; [apply MAltL|apply MAltR]; auto.
  - constructor.
Qed.

Lemma Matches_nullable (cl : bool) (r : regex) (s : string) :
  Matches cl r s -> s = "" -> nullable r = true.
Proof.
  induction 1; intros E; simpl; try discriminate E; try reflexivity.
  - apply append_empty in E as [E1 E2]. now rewrite IHMatches1, IHMatches2.
  - now rewrite IHMatches.
  - rewrite IHMatches by assumption. apply orb_true_r.
Qed.

Lemma nullable_iff (cl : bool) (r : regex) :
  nullable r = true <-> Matches cl r "".
Proof.
  split; [apply nullable_Matches|].
  intros H. now apply (Matches_nullable cl r "" H).
Qed.

Lemma deriv_sound (cl : bool) (c : ascii) (r : regex) (s : string) :
  Matches cl (deriv cl c r) s -> Matches cl r (String c s).
Proof.
  revert s. induction r; intros s H; simpl in H.
  - inversion H.
  - inversion H.
  - destruct (char_eq cl c0 c) eqn:E; inversion H; subst. now constructor.
  - destruct (Ascii.eqb c "010") eqn:E; inversion H; subst. now constructor.
  - inversion H as [| | | | ? ? ? H1 | ? ? ? H1 | |]; subst.
    + inversion H1; subst.
      change (String c (s1 ++ s2)) with (String c s1 ++ s2).
      constructor; auto.
    + destruct (nullable r1) eqn:N; [|inversion H1].
      change (String c s) with ("" ++ String c s).
      constructor; [now apply nullable_Matches|auto].
  - inversion H; subst; [apply MAltL|apply MAltR]; auto.
  - inversion H; subst.
    change (String c (s1 ++ s2)) with (String c s1 ++ s2).
    constructor; auto.
Qed.

Lemma deriv_complete_gen (cl : bool) (r : regex) (s0 : string) :
  Matches cl r s0 ->
  forall c s, s0 = String c s -> Matches cl (deriv cl c r) s.
Proof.
  induction 1 as [ | a c0 Hc | c0 Hc | r1 r2 s1 s2 H1 IH1 H2 IH2
                 | r1 r2 s1 H1 IH1 | r1 r2 s1 H1 IH1
                 | r1 | r1 s1 s2 H1 IH1 H2 IH2 ];
    intros c s E; simpl.
  - discriminate E.
  - injection E as -> <-. rewrite Hc. constructor.
  - injection E as -> <-. rewrite Hc. constructor.
  - destruct s1 as [|c1 s1].
    + simpl in E. apply MAltR.
      rewrite (Matches_nullable cl r1 "" H1 eq_refl). auto.
    + simpl in E. injection E as -> <-. apply MAltL.
      constructor; auto.
  - apply MAltL. auto.
  - apply MAltR. auto.
  - discriminate E.
  - destruct s1 as [|c1 s1].
    + simpl in E. exact (IH2 c s E).
    + simpl in E. injection E as -> <-. constructor; auto.
Qed.

Lemma deriv_iff (cl : bool) (c : ascii) (r : regex) (s : string) :
  Matches cl (deriv cl c r) s <-> Matches cl r (String c s).
Proof.
  split; [apply deriv_sound|].
  intros H. exact (deriv_complete_gen cl r _ H c s eq_refl).
Qed.

(** [match_here] holds exactly when the regex matches a prefix. *)
Lemma match_here_iff (cl : bool) (r : regex) (s : string) :
  match_here cl r s = true <->
  exists pre post, s = pre ++ post /\ Matches cl r pre.
Proof.
  revert r. induction s as [|c s IH]; intros r; simpl.
  - rewrite (nullable_iff cl). split.
    + intros H. now exists "", "".
    + intros [pre [post [E H]]]. symmetry in E.
      apply append_empty in E as [-> _]. exact H.
  - rewrite orb_true_iff, (nullable_iff cl), IH. split.
    + intros [H|[pre [post [E H]]]].
      * now exists "", (String c s).
      * exists (String c pre), post. simpl. rewrite E.
        split; [reflexivity|now apply deriv_sound].
    + intros [pre [post [E H]]]. destruct pre as [|a pre].
      * now left.
      * right. simpl in E. injection E as <- ->.
        exists pre, post. split; [reflexivity|now apply deriv_iff].
Qed.

(** [search_in] holds exactly when the regex matches a substring. *)
Lemma search_in_iff (cl : bool) (r : regex) (s : string) :
  search_in cl r s = true <->
  exists a mid b, s = a ++ mid ++ b /\ Matches cl r mid.
Proof.
  induction s as [|c s IH].
  - change (search_in cl r "") with (match_here cl r "" || false).
    rewrite orb_false_r, match_here_iff. split.
    + intros [pre [post [E H]]]. now exists "", pre, post.
    + intros [a [mid [b [E H]]]]. destruct a; [|discriminate E].
      now exists mid, b.
  - change (search_in cl r (String c s))
      with (match_here cl r (String c s) || search_in cl r s).
    rewrite orb_true_iff, match_here_iff, IH. split.
    + intros [[pre [post [E H]]]|[a [mid [b [E H]]]]].
      * now exists "", pre, post.
      * exists (String c a), mid, b. simpl. now rewrite E.
    + intros [a [mid [b [E H]]]]. destruct a as [|x a].
      * left. now exists mid, b.
      * right. simpl in E. injection E as _ ->. now exists a, mid, b.
Qed.

End RegexSemantics.

(** ** The regex engine on patterns without metacharacters *)

Module RegexFacts.

Import Regex.

Lemma match_here_Fail (cl : bool) (s : string) :
  match_here cl Fail s = false.
Proof. induction s as [|c s IH]; simpl; auto. Qed.

Lemma match_here_Alt (cl : bool) (r1 r2 : regex) (s : string) :
  match_here cl (Alt r1 r2) s = match_here cl r1 s || match_here cl r2 s.
Proof.
  revert r1 r2. induction s as [|c s IH]; intros r1 r2; simpl.
  - reflexivity.
  - rewrite IH.
    destruct (nullable r1), (nullable r2),
      (match_here cl (deriv cl c r1) s); reflexivity.
Qed.

Lemma match_here_Seq_Fail (cl : bool) (r : regex) (s : string) :
  match_here cl (Seq Fail r) s = false.
Proof.
  induction s as [|c s IH]; simpl; [reflexivity|].
  now rewrite match_here_Alt, IH, match_here_Fail.
Qed.

Lemma match_here_Seq_Eps (cl : bool) (r : regex) (s : string) :
  match_here cl (Seq Eps r) s = match_here cl r s.
Proof.
  destruct s as [|c s]; simpl; [reflexivity|].
  now rewrite match_here_Alt, match_here_Seq_Fail.
Qed.

Lemma match_here_Seq_Chr (cl : bool) (a : ascii) (r : regex) (s : string) :
  match_here cl (Seq (Chr a) r) s =
  match s with
  | EmptyString => false
  | String c s' => char_eq cl a c && match_here cl r s'
  end.
Proof.
  destruct s as [|c s]; simpl; [reflexivity|].
  rewrite match_here_Alt, match_here_Fail, orb_false_r.
  destruct (char_eq cl a c); simpl.
  - apply match_here_Seq_Eps.
  - apply match_here_Seq_Fail.
Qed.

Lemma prefix_cons (a b : ascii) (p s : string) :
  String.prefix (String a p) (String b s) =
  Ascii.eqb a b && String.prefix p s.
Proof.
  simpl. destruct (ascii_dec a b) as [E|N].
  - subst. now rewrite Ascii.eqb_refl.
  - apply Ascii.eqb_neq in N. now rewrite N.
Qed.

(** The regex of a literal pattern matches at the head of [s] exactly
    when the pattern, lowercased, is a prefix of [s], lowercased. *)
Lemma match_here_literal (p s : string) :
  match_here true (literal p) s = String.prefix (lower p) (lower s).
Proof.
  revert s. induction p as [|a p IH]; intros s.
  - destruct s; reflexivity.
  - change (literal (String a p)) with (Seq (Chr a) (literal p)).
    rewrite match_here_Seq_Chr. destruct s as [|c s]; [reflexivity|].
    change (lower (String a p)) with (String (lower_char a) (lower p)).
    change (lower (String c s)) with (String (lower_char c) (lower s)).
    rewrite prefix_cons, IH. reflexivity.
Qed.

Lemma search_in_literal (p s : string) :
  search_in true (literal p) s = Spec.contains_ci p s.
Proof.
  unfold Spec.contains_ci.
  induction s as [|c s IH].
  - change (search_in true (literal p) "")
      with (match_here true (literal p) "" || false).
    now rewrite match_here_literal.
  - change (search_in true (literal p) (String c s))
      with (match_here true (literal p) (String c s)
            || search_in true (literal p) s).
    now rewrite match_here_literal, IH.
Qed.

Lemma step_literal (st : pstate) (c : ascii) :
  prev st <> AfterBackslash ->
  is_meta c = false ->
  step st c = inr (push (Chr c) st).
Proof.
  intros Hp Hc. unfold step. unfold is_meta in Hc.
  destruct (classify c); try discriminate Hc.
  destruct (prev st); try reflexivity. congruence.
Qed.

Lemma literal_fold (p : string) :
  literal p =
  fold_right (fun r acc => Seq r acc) Eps
             (map Chr (list_ascii_of_string p)).
Proof. induction p as [|c p IH]; simpl; [reflexivity|]. now rewrite IH. Qed.

Lemma seq_of_rev (l : list regex) :
  fold_left (fun acc r => Seq r acc) (rev l) Eps =
  fold_right (fun r acc => Seq r acc) Eps l.
Proof.
  induction l as [|x l IH]; [reflexivity|].
  simpl. now rewrite fold_left_app, IH.
Qed.

Lemma parse_literal (p : string) (st : pstate) :
  prev st <> AfterBackslash ->
  no_meta p = true ->
  exists st',
    parse st p = finish st'
    /\ prev st' <> AfterBackslash
    /\ outer st' = outer st
    /\ alts (top st') = alts (top st)
    /\ cur (top st') =
       rev (map Chr (list_ascii_of_string p)) ++ cur (top st).
Proof.
  revert st. induction p as [|c p IH]; intros st Hp Hn.
  - exists st. simpl. auto.
  - simpl in Hn. apply andb_true_iff in Hn as [Hc Hn].
    apply negb_true_iff in Hc.
    simpl parse. rewrite (step_literal st c Hp Hc).
    destruct (IH (push (Chr c) st)) as (st' & H1 & H2 & H3 & H4 & H5).
    + simpl. discriminate.
    + exact Hn.
    + exists st'. repeat split; try assumption.
      rewrite H5. simpl. now rewrite <- app_assoc.
Qed.

(** A pattern without metacharacters compiles to its characters in
    sequence. *)
Lemma compile_literal (p : string) :
  no_meta p = true -> compile p = inr (literal p).
Proof.
  intros Hn. unfold compile.
  destruct (parse_literal p start) as (st' & H1 & H2 & H3 & H4 & H5);
    [simpl; discriminate|exact Hn|].
  rewrite H1. unfold finish. simpl in H3, H4, H5. rewrite H3.
  destruct (prev st'); try congruence;
    unfold close, seq_of; rewrite H4, H5, app_nil_r; simpl;
    rewrite literal_fold, seq_of_rev; reflexivity.
Qed.

End RegexFacts.

(** ** Search *)

Lemma prefix_iff (p s : string) :
  String.prefix p s = true <-> exists post, s = (p ++ post)%string.
Proof.
  revert s. induction p as [|a p IH]; intros s.
  - split; [intros _; now exists s|intros _; now destruct s].
  - destruct s as [|b s].
    + simpl. split; [discriminate|intros [post H]; discriminate H].
    + rewrite RegexFacts.prefix_cons, andb_true_iff, Ascii.eqb_eq, IH.
      split.
      * intros [-> [post ->]]. now exists post.
      * intros [post H]. simpl in H. injection H as -> ->.
        split; [reflexivity|now exists post].
Qed.

(** [contains] is occurrence as a substring. *)
Lemma contains_iff (needle hay : string) :
  contains needle hay = true <->
  exists pre post, hay = (pre ++ needle ++ post)%string.
Proof.
  induction hay as [|c hay IH].
  - change (contains needle "") with (String.prefix needle "" || false).
    rewrite orb_false_r, prefix_iff. split.
    + intros [post H]. now exists ""%string, post.
    + intros [pre [post H]]. destruct pre; [now exists post|discriminate H].
  - change (contains needle (String c hay))
      with (String.prefix needle (String c hay) || contains needle hay).
    rewrite orb_true_iff, prefix_iff, IH. split.
    + intros [[post H]|[pre [post H]]].
      * now exists ""%string, post.
      * exists (String c pre), post. simpl. now rewrite H.
    + intros [pre [post H]]. destruct pre as [|a pre].
      * left. now exists post.
      * right. simpl in H. injection H as _ H. now exists pre, post.
Qed.

Lemma compile_search_filter (q : string) :
  Mongo.compile_filter (Spec.search_filter q) =
  match Regex.compile q with
  | inl e => inl e
  | inr r =>
      inr (fun d =>
             existsb (forallb (Mongo.holds d))
               [ [(Mongo.k_title, Mongo.CRegex true r)];
                 [(Mongo.k_subject, Mongo.CRegex true r)];
                 [(Mongo.k_description, Mongo.CRegex true r)] ])
  end.
Proof.
  unfold Spec.search_filter, Mongo.compile_filter, Mongo.compile_clauses,
    Mongo.compile_clause, Mongo.compile_cond.
  change (Mongo.caseless_of "i") with (@inr Regex.failure bool true).
  destruct (Regex.compile q); reflexivity.
Qed.

(** What [search] does with a non-empty trimmed query: the store compiles
    it as a caseless pattern and returns the records it matches. *)
Lemma search_run (args : MultiDict) (w : world) :
  let q := strip (md_get args "query" "") in
  q <> ""%string ->
  search args w =
  match Regex.compile q with
  | inr r =>
      (Done (render_template
               (search_results_html (filter (Spec.regex_match r) (pdfs w)) q)
               200),
       log (Mongo.find (Spec.search_filter q)) w)
  | inl e => (Raised (exn_of e), log (Mongo.find (Spec.search_filter q)) w)
  end.
Proof.
  intros q Hq. unfold search. fold q.
  apply truthy_true in Hq. rewrite Hq.
  change (negb true) with false. cbv iota.
  unfold bind, db_find. fold (Spec.search_filter q).
  rewrite compile_search_filter.
  destruct (Regex.compile q) as [e|r]; [reflexivity|].
  rewrite (filter_ext _ (Spec.regex_match r)); [reflexivity|].
  intros d. unfold Spec.regex_match, Mongo.holds. simpl.
  rewrite !andb_true_r, orb_false_r, orb_assoc. reflexivity.
Qed.

(** C7. [search] on an empty query, on a query of whitespace only (such
    as " ") or without a query parameter renders the empty result list;
    it raises nothing and makes no call on the store: the world is
    returned as it was. *)
Theorem search_blank_query (args : MultiDict) (w : world) :
  whitespace_only (md_get args "query" "") = true ->
  search args w =
  (Done (render_template (search_results_html [] "") 200), w).
Proof.
  intros H. unfold search.
  rewrite (strip_whitespace_only _ H). reflexivity.
Qed.

Lemma search_blank_query_witness :
  search [("query", "")] Sample.seeded =
  (Done (render_template (search_results_html [] "") 200), Sample.seeded)
  /\ search [("query", " ")] Sample.seeded =
     (Done (render_template (search_results_html [] "") 200), Sample.seeded)
  /\ calls (snd (search [("query", " ")] Sample.seeded)) = [].
Proof.
  split; [|split].
  - apply (search_blank_query [("query", "")] Sample.seeded). reflexivity.
  - apply (search_blank_query [("query", " ")] Sample.seeded). reflexivity.
  - rewrite (search_blank_query [("query", " ")] Sample.seeded);
      reflexivity.
Defined.

(** C10. [search] is invariant under whitespace around the query: the
    request with the trimmed query has the same outcome, results and
    world, as the request itself, in every world. *)
Theorem search_trim_invariant (args : MultiDict) (w : world) :
  search [("query", strip (md_get args "query" ""))] w = search args w.
Proof.
  unfold search.
  change (md_get [("query", strip (md_get args "query" ""))] "query" "")
    with (strip (md_get args "query" "")).
  rewrite strip_idem. reflexivity.
Qed.

(** Literal and regex matching agree on a query without
    metacharacters. *)
Lemma regex_match_literal (q : string) (d : Document) :
  Spec.regex_match (Regex.literal q) d = Spec.literal_match q d.
Proof.
  unfold Spec.regex_match, Spec.literal_match.
  now rewrite !RegexFacts.search_in_literal.
Qed.

Lemma in_searched_fields (P : string -> Prop) (d : Document) :
  (P (title d) \/ P (subject d) \/ P (description d)) <->
  exists f, In f (Spec.searched_fields d) /\ P f.
Proof.
  unfold Spec.searched_fields. simpl. split.
  - intros [H|[H|H]]; eauto 6.
  - intros [f [[<-|[<-|[<-|[]]]] H]]; auto.
Qed.

(** A record matches a compiled pattern when the pattern matches a
    substring of one of the searched fields. *)
Lemma regex_match_iff (r : Regex.regex) (d : Document) :
  Spec.regex_match r d = true <->
  exists f, In f (Spec.searched_fields d)
            /\ exists a mid b, f = (a ++ mid ++ b)%string
                               /\ Regex.Matches true r mid.
Proof.
  rewrite <- (in_searched_fields
                (fun f => exists a mid b, f = (a ++ mid ++ b)%string
                                          /\ Regex.Matches true r mid)).
  unfold Spec.regex_match.
  rewrite !orb_true_iff, !RegexSemantics.search_in_iff. tauto.
Qed.

(** A record matches a query literally when the lowercased query is a
    substring of one of the searched fields, lowercased. *)
Lemma literal_match_iff (q : string) (d : Document) :
  Spec.literal_match q d = true <->
  exists f, In f (Spec.searched_fields d)
            /\ exists a b, lower f = (a ++ lower q ++ b)%string.
Proof.
  rewrite <- (in_searched_fields
                (fun f => exists a b, lower f = (a ++ lower q ++ b)%string)).
  unfold Spec.literal_match, Spec.contains_ci.
  rewrite !orb_true_iff, !contains_iff. tauto.
Qed.

(** C1, as the code has it.  [search] hands the trimmed query to the
    store as a caseless regular expression: a record is returned exactly
    when the compiled pattern matches a substring of its title, subject
    or description, and a pattern that the engine rejects makes the
    request fail with the store's error.  For a non-empty trimmed query
    without any of the metacharacters [\ ^ $ . [ | ( ) ? * + {] this is
    literal, case-insensitive substring matching: the results are exactly
    the stored records in which the query occurs in one of the three
    fields, letter case aside. *)
Theorem search_regex_semantics (args : MultiDict) (w : world) :
  let q := strip (md_get args "query" "") in
  q <> ""%string ->
  (forall r,
     Regex.compile q = inr r ->
     exists results,
       search args w =
       (Done (render_template (search_results_html results q) 200),
        log (Mongo.find (Spec.search_filter q)) w)
       /\ forall d,
            In d results <->
            In d (pdfs w)
            /\ exists f, In f (Spec.searched_fields d)
                         /\ exists a mid b,
                              f = (a ++ mid ++ b)%string
                              /\ Regex.Matches true r mid)
  /\ (Regex.compile q = inl Regex.Malformed ->
      search args w =
      (Raised OperationFailure, log (Mongo.find (Spec.search_filter q)) w))
  /\ (Regex.no_meta q = true ->
      exists results,
        search args w =
        (Done (render_template (search_results_html results q) 200),
         log (Mongo.find (Spec.search_filter q)) w)
        /\ results = filter (Spec.literal_match q) (pdfs w)
        /\ forall d,
             In d results <->
             In d (pdfs w)
             /\ exists f, In f (Spec.searched_fields d)
                          /\ exists a b,
                               lower f = (a ++ lower q ++ b)%string).
Proof.
  intros q Hq. pose proof (search_run args w Hq) as H. fold q in H.
  split; [|split].
  - intros r E. rewrite E in H.
    exists (filter (Spec.regex_match r) (pdfs w)). split; [exact H|].
    intros d. now rewrite filter_In, regex_match_iff.
  - intros E. now rewrite E in H.
  - intros Hn. rewrite (RegexFacts.compile_literal q Hn) in H.
    rewrite (filter_ext _ _ (regex_match_literal q)) in H.
    exists (filter (Spec.literal_match q) (pdfs w)).
    split; [exact H|]. split; [reflexivity|].
    intros d. now rewrite filter_In, literal_match_iff.
Qed.

Lemma search_regex_semantics_witness :
  search [("query", " ICT ")] Sample.seeded =
  (Done (render_template (search_results_html [Sample.chapter_1] "ICT") 200),
   log (Mongo.find (Spec.search_filter "ICT")) Sample.seeded).
Proof.
  destruct (search_regex_semantics [("query", " ICT ")] Sample.seeded)
    as (_ & _ & H).
  - vm_compute. discriminate.
  - destruct H as (results & H & -> & _); [reflexivity|]. exact H.
Defined.

(** C1 fails as stated: the query "." returns both sample records,
    although "." occurs in no title, subject or description, and the
    query "(" makes the request fail with the store's error. *)
Lemma search_is_not_literal :
  fst (search [("query", ".")] Sample.seeded) =
  Done (render_template
          (search_results_html [Sample.chapter_1; Sample.optics] ".") 200)
  /\ filter (Spec.literal_match ".") (pdfs Sample.seeded) = []
  /\ fst (search [("query", "(")] Sample.seeded) = Raised OperationFailure.
Proof. split; [|split]; reflexivity. Qed.

(** * Further properties of the handlers *)

(** ** Every way [upload] can end *)

Lemma upload_logged_out
      (slugify : string -> string) (method : string) (form : MultiDict)
      (w : world) :
  admin_logged_in w = false ->
  upload slugify method form w =
  (Done (redirect to_login),
   Spec.flashed [("Please login to access this page.", "warning")] w).
Proof.
  intros H. unfold upload, admin_required, bind, session_admin.
  rewrite H. reflexivity.
Qed.

Lemma upload_not_post
      (slugify : string -> string) (method : string) (form : MultiDict)
      (w : world) :
  admin_logged_in w = true ->
  method <> "POST"%string ->
  upload slugify method form w =
  (Done (render_template (upload_html None) 200), w).
Proof.
  intros H Hm. unfold upload. rewrite (admin_required_logged_in _ _ H).
  unfold upload_body. apply String.eqb_neq in Hm. rewrite Hm. reflexivity.
Qed.

Lemma upload_cases
      (slugify : string -> string) (method : string) (form : MultiDict)
      (w : world) :
  let d := Spec.record_of slugify form in
  let w0 := log (Mongo.find_one (Spec.key_filter d)) w in
  (admin_logged_in w = false
   /\ upload slugify method form w =
      (Done (redirect to_login),
       Spec.flashed [("Please login to access this page.", "warning")] w))
  \/ (admin_logged_in w = true /\ method <> "POST"%string
      /\ upload slugify method form w =
         (Done (render_template (upload_html None) 200), w))
  \/ (admin_logged_in w = true /\ method = "POST"%string
      /\ Spec.violations form <> []
      /\ upload slugify method form w =
         (Done (render_template (upload_html (Some form)) 200),
          Spec.flashed (Spec.danger (Spec.violations form)) w))
  \/ (admin_logged_in w = true /\ method = "POST"%string
      /\ Spec.violations form = []
      /\ (exists x, In x (pdfs w)
                    /\ Spec.has_key (mode d) (subject d) (filename d) x = true)
      /\ upload slugify method form w =
         (Done (render_template (upload_html (Some form)) 200),
          Spec.flashed [(Spec.duplicate_message, "danger")] w0))
  \/ (admin_logged_in w = true /\ method = "POST"%string
      /\ Spec.violations form = []
      /\ (forall x, In x (pdfs w) ->
                    Spec.has_key (mode d) (subject d) (filename d) x = false)
      /\ upload slugify method form w =
         (Done (redirect (to_subject_page (mode d) (subject d))),
          Spec.flashed [(Spec.success_message, "success")]
                       (Spec.inserted d w0))).
Proof.
  intros d w0.
  destruct (admin_logged_in w) eqn:Hadm.
  2:{ left. split; [reflexivity|]. now apply upload_logged_out. }
  right.
  destruct (String.eqb_spec method "POST") as [->|Hm].
  2:{ left. repeat split; [assumption|]. now apply upload_not_post. }
  right.
  destruct (Spec.violations form) as [|v vs] eqn:Hv.
  2:{ left. repeat split; [discriminate|]. rewrite <- Hv.
      apply upload_validation_failed; [assumption|]. rewrite Hv. discriminate. }
  right.
  pose proof (upload_checked slugify form w Hadm Hv) as H. cbv zeta in H.
  fold d in H. fold w0 in H.
  destruct (find _ (pdfs w)) as [x|] eqn:F.
  - left. repeat split; [|exact H].
    exists x. now apply find_some in F.
  - right. repeat split; [|exact H].
    intros x Hin. exact (find_none _ _ F x Hin).
Qed.

(** ** What [upload] does to the store *)

(** X1. [upload] changes the collection in one case only: the session is
    logged in, the method is POST, no validation rule is violated and no
    stored record has the submission's key.  Then the normalized record
    is appended; in every other case the collection is what it was. *)
Theorem upload_writes_exactly_when
        (slugify : string -> string) (method : string) (form : MultiDict)
        (w : world) :
  let d := Spec.record_of slugify form in
  let accepted :=
    admin_logged_in w = true /\ method = "POST"%string
    /\ Spec.violations form = []
    /\ forall x, In x (pdfs w) ->
                 Spec.has_key (mode d) (subject d) (filename d) x = false in
  (accepted -> pdfs (snd (upload slugify method form w)) = pdfs w ++ [d])
  /\ (~ accepted -> pdfs (snd (upload slugify method form w)) = pdfs w).
Proof.
  intros d accepted. unfold accepted.
  destruct (upload_cases slugify method form w)
    as [(H1 & E)|[(H1 & H2 & E)|[(H1 & H2 & H3 & E)
       |[(H1 & H2 & H3 & (x & Hx & Hk) & E)|(H1 & H2 & H3 & H4 & E)]]]];
    rewrite E; simpl; (split; [intros (A1 & A2 & A3 & A4)|intros N]);
    try reflexivity; try congruence.
  - exfalso. exact (eq_true_false_abs _ Hk (A4 x Hx)).
  - exfalso. exact (N (conj H1 (conj H2 (conj H3 H4)))).
Qed.

Lemma upload_writes_exactly_when_witness :
  pdfs (snd (upload Slug.slugify_ascii "POST" Sample.submission
                    Sample.empty_store)) = [Sample.chapter_1]
  /\ pdfs (snd (upload Slug.slugify_ascii "POST" Sample.submission
                       Sample.seeded)) = pdfs Sample.seeded.
Proof.
  split.
  - apply (upload_writes_exactly_when Slug.slugify_ascii "POST"
             Sample.submission Sample.empty_store).
    repeat split. simpl. intros x [].
  - apply (upload_writes_exactly_when Slug.slugify_ascii "POST"
             Sample.submission Sample.seeded).
    intros (_ & _ & _ & H). specialize (H Sample.chapter_1).
    simpl in H. discriminate H. now left.
Defined.

Lemma violations_nil (form : MultiDict) :
  Spec.violations form = [] <->
  valid_mode (lower (md_get form "mode" "")) = true
  /\ valid_subject (lower (md_get form "subject" "")) = true
  /\ truthy (strip (md_get form "title" "")) = true
  /\ truthy (strip (md_get form "link" "")) = true.
Proof.
  unfold Spec.violations.
  destruct (valid_mode _), (valid_subject _), (truthy (strip (md_get form "title" ""))),
    (truthy (strip (md_get form "link" ""))); simpl;
    split; intros H; try discriminate H; try reflexivity; try tauto;
    destruct H as (? & ? & ? & ?); discriminate.
Qed.

(** The record of a submission that passes validation is well formed. *)
Lemma record_well_formed (slugify : string -> string) (form : MultiDict) :
  Spec.violations form = [] ->
  Inv.well_formed slugify (Spec.record_of slugify form).
Proof.
  intros H. apply violations_nil in H as (Hm & Hs & Ht & Hl).
  unfold Inv.well_formed, Spec.record_of. simpl.
  repeat split.
  - now apply valid_mode_lower.
  - now apply valid_subject_lower.
  - now apply truthy_true.
  - apply strip_idem.
  - now apply truthy_true.
  - apply strip_idem.
  - apply strip_idem.
  - apply strip_idem.
Qed.

Lemma upload_store_cases
      (slugify : string -> string) (method : string) (form : MultiDict)
      (w : world) :
  let d := Spec.record_of slugify form in
  pdfs (snd (upload slugify method form w)) = pdfs w
  \/ (Spec.violations form = []
      /\ (forall x, In x (pdfs w) ->
                    Spec.has_key (mode d) (subject d) (filename d) x = false)
      /\ pdfs (snd (upload slugify method form w)) = pdfs w ++ [d]).
Proof.
  intros d.
  destruct (upload_cases slugify method form w)
    as [(H1 & E)|[(H1 & H2 & E)|[(H1 & H2 & H3 & E)
       |[(H1 & H2 & H3 & H4 & E)|(H1 & H2 & H3 & H4 & E)]]]];
    rewrite E; simpl; auto.
Qed.

(** X2. [upload] keeps the collection well formed: if every stored
    record has a mode of [MODES], a subject of [SUBJECTS], a non-empty
    trimmed title and link, a trimmed description and photo, and the
    slug of its title as filename, then so has every record after any
    upload request. *)
Theorem upload_keeps_well_formed
        (slugify : string -> string) (method : string) (form : MultiDict)
        (w : world) :
  (forall d, In d (pdfs w) -> Inv.well_formed slugify d) ->
  forall d, In d (pdfs (snd (upload slugify method form w))) ->
            Inv.well_formed slugify d.
Proof.
  intros Hw d.
  destruct (upload_store_cases slugify method form w) as [E|(Hv & _ & E)];
    rewrite E.
  - apply Hw.
  - intros Hin. apply in_app_or in Hin as [Hin|[<-|[]]].
    + now apply Hw.
    + now apply record_well_formed.
Qed.

Lemma upload_keeps_well_formed_witness :
  Inv.well_formed Slug.slugify_ascii Sample.chapter_1.
Proof.
  apply (upload_keeps_well_formed Slug.slugify_ascii "POST"
           Sample.submission Sample.empty_store).
  - simpl. intros d [].
  - simpl. now left.
Defined.

Lemma has_key_of (d x : Document) :
  Spec.has_key (mode d) (subject d) (filename d) x = true <->
  Inv.key_of x = Inv.key_of d.
Proof.
  unfold Spec.has_key, Inv.key_of.
  rewrite !andb_true_iff, !String.eqb_eq. split.
  - intros [[-> ->] ->]. reflexivity.
  - intros H. injection H as -> -> ->. auto.
Qed.

(** X3. [upload] keeps the uniqueness key unique: if no two stored
    records share their (mode, subject, filename), the same holds after
    any upload request of the session. *)
Theorem upload_keeps_keys_unique
        (slugify : string -> string) (method : string) (form : MultiDict)
        (w : world) :
  NoDup (map Inv.key_of (pdfs w)) ->
  NoDup (map Inv.key_of (pdfs (snd (upload slugify method form w)))).
Proof.
  intros Hn.
  destruct (upload_store_cases slugify method form w) as [E|(_ & Hf & E)];
    rewrite E; [assumption|].
  rewrite map_app. apply NoDup_app; [assumption| |].
  - simpl. constructor; [intros []|constructor].
  - intros k Hk [<-|[]].
    apply in_map_iff in Hk as (x & Ex & Hx).
    apply has_key_of in Ex. rewrite (Hf x Hx) in Ex. discriminate Ex.
Qed.

Lemma upload_keeps_keys_unique_witness :
  NoDup (map Inv.key_of
             (pdfs (snd (upload Slug.slugify_ascii "POST"
                                Sample.submission Sample.seeded)))).
Proof.
  apply (upload_keeps_keys_unique Slug.slugify_ascii "POST"
           Sample.submission Sample.seeded).
  simpl. constructor.
  - simpl. intros [H|[]]. discriminate H.
  - constructor; [intros []|constructor].
Defined.

(** X4. [upload] reaches the store by check-then-insert only and never
    touches the session: over one request the call trace grows by
    nothing, by the uniqueness query, or by the uniqueness query followed
    by the insertion of the submission's record; it grows by nothing
    when the session is logged out, the method is not POST or a
    validation rule is violated. *)
Theorem upload_check_then_insert
        (slugify : string -> string) (method : string) (form : MultiDict)
        (w : world) :
  let d := Spec.record_of slugify form in
  let w' := snd (upload slugify method form w) in
  admin_logged_in w' = admin_logged_in w
  /\ exists trace,
       calls w' = calls w ++ trace
       /\ (trace = []
           \/ trace = [Mongo.find_one (Spec.key_filter d)]
           \/ trace = [Mongo.find_one (Spec.key_filter d);
                       Mongo.insert_one d])
       /\ (admin_logged_in w = false \/ method <> "POST"%string
           \/ Spec.violations form <> [] -> trace = []).
Proof.
  intros d w'. unfold w'.
  destruct (upload_cases slugify method form w)
    as [(H1 & E)|[(H1 & H2 & E)|[(H1 & H2 & H3 & E)
       |[(H1 & H2 & H3 & H4 & E)|(H1 & H2 & H3 & H4 & E)]]]];
    rewrite E; simpl; (split; [reflexivity|]).
  - exists []. rewrite app_nil_r. auto.
  - exists []. rewrite app_nil_r. auto.
  - exists []. rewrite app_nil_r. auto.
  - exists [Mongo.find_one (Spec.key_filter d)].
    split; [reflexivity|]. split; [auto|].
    intros [N|[N|N]]; congruence.
  - exists [Mongo.find_one (Spec.key_filter d); Mongo.insert_one d].
    split; [now rewrite <- app_assoc|]. split; [auto|].
    intros [N|[N|N]]; congruence.
Qed.

Lemma upload_check_then_insert_witness :
  exists trace,
    calls (snd (upload Slug.slugify_ascii "POST"
                       [("mode", "academic")] Sample.seeded)) =
    calls Sample.seeded ++ trace
    /\ trace = [].
Proof.
  destruct (upload_check_then_insert Slug.slugify_ascii "POST"
              [("mode", "academic")] Sample.seeded)
    as (_ & trace & H1 & _ & H3).
  exists trace. split; [exact H1|].
  apply H3. right. right. vm_compute. discriminate.
Defined.

(** ** Round trips: what is uploaded can be browsed, opened and found *)

Lemma prefix_refl (s : string) : String.prefix s s = true.
Proof.
  induction s as [|c s IH]; [reflexivity|].
  now rewrite RegexFacts.prefix_cons, Ascii.eqb_refl, IH.
Qed.

Lemma contains_refl (s : string) : contains s s = true.
Proof.
  destruct s as [|c s].
  - reflexivity.
  - change (contains (String c s) (String c s))
      with (String.prefix (String c s) (String c s)
            || contains (String c s) s).
    now rewrite prefix_refl.
Qed.

Lemma search_literal_run (args : MultiDict) (w : world) :
  let q := strip (md_get args "query" "") in
  q <> ""%string ->
  Regex.no_meta q = true ->
  search args w =
  (Done (render_template
           (search_results_html (filter (Spec.literal_match q) (pdfs w)) q)
           200),
   log (Mongo.find (Spec.search_filter q)) w).
Proof.
  intros q Hq Hn. pose proof (search_run args w Hq) as H. fold q in H.
  rewrite (RegexFacts.compile_literal q Hn) in H.
  now rewrite (filter_ext _ _ (regex_match_literal q)) in H.
Qed.

Lemma upload_created
      (slugify : string -> string) (form : MultiDict) (w : world) :
  let d := Spec.record_of slugify form in
  admin_logged_in w = true ->
  Spec.violations form = [] ->
  (forall x, In x (pdfs w) ->
             Spec.has_key (mode d) (subject d) (filename d) x = false) ->
  upload slugify "POST" form w =
  (Done (redirect (to_subject_page (mode d) (subject d))),
   Spec.flashed [(Spec.success_message, "success")]
     (Spec.inserted d (log (Mongo.find_one (Spec.key_filter d)) w))).
Proof.
  intros d Hadm Hv Hf.
  destruct (upload_cases slugify "POST" form w)
    as [(H1 & E)|[(H1 & H2 & E)|[(H1 & H2 & H3 & E)
       |[(H1 & H2 & H3 & (x & Hx & Hk) & E)|(H1 & H2 & H3 & H4 & E)]]]];
    try congruence.
  - exfalso. exact (eq_true_false_abs _ Hk (Hf x Hx)).
  - exact E.
Qed.

(** X5. The redirect of a successful upload leads to a page that shows
    the new record: [subject_page] on the redirect's mode and subject
    lists what it listed before the upload, followed by the record just
    stored. *)
Theorem upload_then_subject_page
        (slugify : string -> string) (form : MultiDict) (w : world) :
  let d := Spec.record_of slugify form in
  admin_logged_in w = true ->
  Spec.violations form = [] ->
  (forall x, In x (pdfs w) ->
             Spec.has_key (mode d) (subject d) (filename d) x = false) ->
  exists before,
    fst (upload slugify "POST" form w) =
    Done (redirect (to_subject_page (mode d) (subject d)))
    /\ fst (subject_page (mode d) (subject d) w) =
       Done (render_template
               (subject_html (mode d) (subject d) before) 200)
    /\ fst (subject_page (mode d) (subject d)
              (snd (upload slugify "POST" form w))) =
       Done (render_template
               (subject_html (mode d) (subject d) (before ++ [d])) 200).
Proof.
  intros d Hadm Hv Hf.
  pose proof (record_well_formed slugify form Hv) as (Hm & Hs & _).
  fold d in Hm, Hs.
  assert (Lm : lower (mode d) = mode d) by apply lower_idem.
  assert (Ls : lower (subject d) = subject d) by apply lower_idem.
  rewrite (upload_created slugify form w Hadm Hv Hf). fold d.
  eexists. split; [reflexivity|].
  rewrite !subject_page_valid by (rewrite ?Lm, ?Ls; assumption).
  rewrite Lm, Ls. simpl fst. split; [reflexivity|].
  simpl pdfs. rewrite filter_app. simpl.
  now rewrite !String.eqb_refl.
Qed.

Lemma upload_then_subject_page_witness :
  exists before,
    fst (upload Slug.slugify_ascii "POST" Sample.submission
                Sample.empty_store) =
    Done (redirect (to_subject_page "academic" "ict"))
    /\ fst (subject_page "academic" "ict" Sample.empty_store) =
       Done (render_template (subject_html "academic" "ict" before) 200)
    /\ fst (subject_page "academic" "ict"
              (snd (upload Slug.slugify_ascii "POST" Sample.submission
                           Sample.empty_store))) =
       Done (render_template
               (subject_html "academic" "ict"
                  (before ++ [Sample.chapter_1])) 200).
Proof.
  apply (upload_then_subject_page Slug.slugify_ascii Sample.submission
           Sample.empty_store).
  - reflexivity.
  - reflexivity.
  - simpl. intros x [].
Defined.

(** X6. A record that was just uploaded can be opened: [pdf_view] on
    the submitted subject and the record's filename never answers 404;
    it renders a stored record with that subject and filename, and the
    new record itself when no older record shares the two. *)
Theorem upload_then_pdf_view
        (slugify : string -> string) (form : MultiDict) (w : world) :
  let d := Spec.record_of slugify form in
  admin_logged_in w = true ->
  Spec.violations form = [] ->
  (forall x, In x (pdfs w) ->
             Spec.has_key (mode d) (subject d) (filename d) x = false) ->
  exists pdf,
    fst (pdf_view (md_get form "subject" "") (filename d)
           (snd (upload slugify "POST" form w))) =
    Done (render_template (pdf_view_html pdf) 200)
    /\ subject pdf = subject d /\ filename pdf = filename d
    /\ ((forall x, In x (pdfs w) ->
                   ~ (subject x = subject d /\ filename x = filename d)) ->
        pdf = d).
Proof.
  intros d Hadm Hv Hf.
  pose proof (record_well_formed slugify form Hv) as (_ & Hs & _).
  rewrite (upload_created slugify form w Hadm Hv Hf). fold d.
  rewrite (pdf_view_valid _ _ _ Hs). simpl fst. simpl pdfs.
  change (lower (md_get form "subject" "")) with (subject d).
  rewrite find_append.
  destruct (find _ (pdfs w)) as [x|] eqn:F.
  - apply find_some in F as [Hin Hp].
    rewrite andb_true_r, andb_true_iff, !String.eqb_eq in Hp.
    exists x. split; [reflexivity|]. split; [tauto|]. split; [tauto|].
    intros N. exfalso. exact (N x Hin Hp).
  - simpl. rewrite !String.eqb_refl. simpl.
    exists d. auto.
Qed.

Lemma upload_then_pdf_view_witness :
  exists pdf,
    fst (pdf_view "ICT" "chapter-1"
           (snd (upload Slug.slugify_ascii "POST" Sample.submission
                        Sample.empty_store))) =
    Done (render_template (pdf_view_html pdf) 200)
    /\ pdf = Sample.chapter_1.
Proof.
  destruct (upload_then_pdf_view Slug.slugify_ascii Sample.submission
              Sample.empty_store) as (pdf & H1 & _ & _ & H4).
  - reflexivity.
  - reflexivity.
  - simpl. intros x [].
  - exists pdf. split; [exact H1|]. apply H4. simpl. intros x [].
Defined.

(** X8. A record that was just uploaded is found by its title: when the
    trimmed title has no regex metacharacter, [search] for the submitted
    title returns a result list that contains the new record. *)
Theorem upload_then_search
        (slugify : string -> string) (form : MultiDict) (w : world) :
  let d := Spec.record_of slugify form in
  admin_logged_in w = true ->
  Spec.violations form = [] ->
  (forall x, In x (pdfs w) ->
             Spec.has_key (mode d) (subject d) (filename d) x = false) ->
  Regex.no_meta (title d) = true ->
  exists results,
    fst (search [("query", md_get form "title" "")]
           (snd (upload slugify "POST" form w))) =
    Done (render_template (search_results_html results (title d)) 200)
    /\ In d results.
Proof.
  intros d Hadm Hv Hf Hn.
  pose proof (record_well_formed slugify form Hv) as (_ & _ & Ht & _).
  rewrite (upload_created slugify form w Hadm Hv Hf). fold d.
  rewrite search_literal_run; [|exact Ht|exact Hn].
  eexists. split; [reflexivity|].
  simpl pdfs. apply filter_In. split.
  - apply in_or_app. right. now left.
  - unfold Spec.literal_match, Spec.contains_ci.
    change (strip (md_get [("query", md_get form "title" "")] "query" ""))
      with (title d).
    now rewrite contains_refl.
Qed.

Lemma upload_then_search_witness :
  exists results,
    fst (search [("query", "Chapter 1")]
           (snd (upload Slug.slugify_ascii "POST" Sample.submission
                        Sample.empty_store))) =
    Done (render_template (search_results_html results "Chapter 1") 200)
    /\ In Sample.chapter_1 results.
Proof.
  apply (upload_then_search Slug.slugify_ascii Sample.submission
           Sample.empty_store).
  - reflexivity.
  - reflexivity.
  - simpl. intros x [].
  - reflexivity.
Defined.

Lemma has_key_true (m s f : string) (x : Document) :
  Spec.has_key m s f x = true <->
  mode x = m /\ subject x = s /\ filename x = f.
Proof.
  unfold Spec.has_key. rewrite !andb_true_iff, !String.eqb_eq. tauto.
Qed.

Lemma has_key_false (m s f : string) (x : Document) :
  ~ (mode x = m /\ subject x = s /\ filename x = f) ->
  Spec.has_key m s f x = false.
Proof.
  intros N. destruct (Spec.has_key m s f x) eqn:E; [|reflexivity].
  apply has_key_true in E. contradiction.
Qed.

Lemma find_none_of {A} (f : A -> bool) (l : list A) :
  (forall x, In x l -> f x = false) -> find f l = None.
Proof.
  intros H. destruct (find f l) as [x|] eqn:F; [|reflexivity].
  apply find_some in F as [Hin Hf]. rewrite (H x Hin) in Hf. discriminate Hf.
Qed.

(** X7. The uniqueness key contains the mode but the lookup of
    [pdf_view] does not: the same title can be uploaded under the same
    subject in both modes, and afterwards [pdf_view] renders the record
    stored first, while no request to [pdf_view] renders the second. *)
Theorem same_title_in_two_modes
        (slugify : string -> string) (form_a form_b : MultiDict)
        (w : world) :
  let a := Spec.record_of slugify form_a in
  let b := Spec.record_of slugify form_b in
  let w1 := snd (upload slugify "POST" form_a w) in
  let w2 := snd (upload slugify "POST" form_b w1) in
  admin_logged_in w = true ->
  Spec.violations form_a = [] ->
  Spec.violations form_b = [] ->
  subject a = subject b ->
  filename a = filename b ->
  mode a <> mode b ->
  (forall x, In x (pdfs w) ->
             ~ (subject x = subject a /\ filename x = filename a)) ->
  pdfs w2 = pdfs w ++ [a; b]
  /\ fst (pdf_view (subject a) (filename a) w2) =
     Done (render_template (pdf_view_html a) 200)
  /\ forall s fn,
       fst (pdf_view s fn w2) <>
       Done (render_template (pdf_view_html b) 200).
Proof.
  intros a b w1 w2 Hadm Hva Hvb Hs Hf Hm Hfresh.
  assert (Fa : forall x, In x (pdfs w) ->
               Spec.has_key (mode a) (subject a) (filename a) x = false).
  { intros x Hx. apply has_key_false. intros (_ & H1 & H2).
    exact (Hfresh x Hx (conj H1 H2)). }
  pose proof (upload_created slugify form_a w Hadm Hva Fa) as Ea.
  fold a in Ea.
  assert (E1 : pdfs w1 = pdfs w ++ [a]) by (unfold w1; now rewrite Ea).
  assert (A1 : admin_logged_in w1 = true) by (unfold w1; now rewrite Ea).
  assert (Fb : forall x, In x (pdfs w1) ->
               Spec.has_key (mode b) (subject b) (filename b) x = false).
  { intros x Hx. rewrite E1 in Hx. apply has_key_false.
    intros (H0 & H1 & H2). apply in_app_or in Hx as [Hx|[<-|[]]].
    - apply (Hfresh x Hx). split; congruence.
    - contradiction. }
  pose proof (upload_created slugify form_b w1 A1 Hvb Fb) as Eb.
  fold b in Eb.
  assert (E2 : pdfs w2 = pdfs w ++ [a; b]).
  { unfold w2. rewrite Eb. simpl. rewrite E1, <- app_assoc. reflexivity. }
  pose proof (record_well_formed slugify form_a Hva) as (_ & Hsa & _).
  fold a in Hsa.
  assert (La : lower (subject a) = subject a) by apply lower_idem.
  assert (Hla : In (lower (subject a)) SUBJECTS) by (rewrite La; exact Hsa).
  split; [exact E2|]. split.
  - rewrite (pdf_view_valid (subject a) (filename a) w2 Hla). cbn [fst].
    rewrite E2, La, find_append, find_none_of.
    + simpl. now rewrite !String.eqb_refl.
    + intros x Hx. rewrite andb_true_r.
      destruct (String.eqb_spec (subject x) (subject a));
        destruct (String.eqb_spec (filename x) (filename a));
        try reflexivity.
      exfalso. exact (Hfresh x Hx (conj e e0)).
  - intros s fn.
    destruct (in_dec string_dec (lower s) SUBJECTS) as [Hin|Hout].
    2:{ rewrite (pdf_view_invalid _ _ _ Hout). discriminate. }
    rewrite (pdf_view_valid _ _ _ Hin). cbn [fst]. rewrite E2.
    destruct (find _ (pdfs w ++ [a; b])) as [x|] eqn:F; [|discriminate].
    intros E. injection E as ->.
    pose proof F as F'. apply find_some in F' as [_ Hp].
    rewrite andb_true_r, andb_true_iff, !String.eqb_eq in Hp.
    destruct Hp as [Hp1 Hp2].
    rewrite find_append in F.
    destruct (find _ (pdfs w)) as [y|] eqn:G.
    + injection F as ->. apply find_some in G as [Hy _].
      apply (Hfresh b Hy). split; congruence.
    + assert (Pa : (String.eqb (subject a) (lower s)
                     && (String.eqb (filename a) fn && true)) = true)
        by (now rewrite Hs, Hf, Hp1, Hp2, !String.eqb_refl).
      cbn [find] in F. rewrite Pa in F.
      apply Hm.
      exact (f_equal (fun o => match o with
                               | Some x => mode x
                               | None => mode a
                               end) F).
Qed.

Lemma same_title_in_two_modes_witness :
  let form_a := [("mode", "academic"); ("subject", "ict");
                 ("title", "Notes"); ("link", "http://a")] in
  let form_b := [("mode", "admission"); ("subject", "ict");
                 ("title", "Notes"); ("link", "http://b")] in
  let w2 := snd (upload Slug.slugify_ascii "POST" form_b
                   (snd (upload Slug.slugify_ascii "POST" form_a
                               Sample.seeded))) in
  pdfs w2 =
  pdfs Sample.seeded ++ [Spec.record_of Slug.slugify_ascii form_a;
                         Spec.record_of Slug.slugify_ascii form_b]
  /\ fst (pdf_view "ict" "notes" w2) =
     Done (render_template
             (pdf_view_html (Spec.record_of Slug.slugify_ascii form_a)) 200).
Proof.
  intros form_a form_b w2.
  destruct (same_title_in_two_modes Slug.slugify_ascii form_a form_b
              Sample.seeded) as (H1 & H2 & _).
  - reflexivity.
  - reflexivity.
  - reflexivity.
  - reflexivity.
  - reflexivity.
  - simpl. discriminate.
  - simpl. intros x [<-|[<-|[]]] [H1 H2]; discriminate.
  - split; [exact H1|exact H2].
Defined.

(** ** Browsing: the links of one page lead to pages that exist *)

(** The fixed names are their own lowercase. *)
Lemma MODES_lowercase (m : string) : In m MODES -> lower m = m.
Proof. simpl. intros [<-|[<-|[]]]; reflexivity. Qed.

Lemma SUBJECTS_lowercase (s : string) : In s SUBJECTS -> lower s = s.
Proof.
  simpl. intros H.
  repeat (destruct H as [<-|H]; [reflexivity|]). destruct H.
Qed.

(** X9. A mode page links to subject pages that exist: for a mode that
    is valid case-insensitively, [mode_page] renders the lowercased mode
    with the twelve subjects and leaves the world alone, and for each of
    these subjects [subject_page] renders a listing, never the 404
    page, in any world. *)
Theorem mode_page_links_resolve (m : string) (w : world) :
  In (lower m) MODES ->
  mode_page m w =
  (Done (render_site (mode_html (lower m) SUBJECTS) 200), w)
  /\ forall s w',
       In s SUBJECTS ->
       exists listed,
         fst (subject_page (lower m) s w') =
         Done (render_template (subject_html (lower m) s listed) 200).
Proof.
  intros Hm. split.
  - unfold mode_page. apply valid_mode_lower in Hm. now rewrite Hm.
  - intros s w' Hs.
    pose proof (SUBJECTS_lowercase s Hs) as Ls.
    rewrite subject_page_valid.
    + rewrite lower_idem, Ls. eexists. reflexivity.
    + now rewrite lower_idem.
    + now rewrite Ls.
Qed.

Lemma mode_page_links_resolve_witness :
  mode_page "Admission" Sample.seeded =
  (Done (render_site (mode_html "admission" SUBJECTS) 200), Sample.seeded)
  /\ exists listed,
       fst (subject_page "admission" "physics 2nd paper" Sample.seeded) =
       Done (render_template
               (subject_html "admission" "physics 2nd paper" listed) 200).
Proof.
  destruct (mode_page_links_resolve "Admission" Sample.seeded) as [H1 H2].
  - simpl. tauto.
  - split; [exact H1|].
    apply (H2 "physics 2nd paper" Sample.seeded). simpl. tauto.
Defined.

(** X10. An unknown mode is unknown everywhere: when the lowercased
    mode is not in [MODES], [mode_page] answers "Invalid Mode" with
    status 404, and [subject_page] answers 404 for that mode whatever the
    subject; neither touches the world. *)
Theorem unknown_mode_is_404 (m : string) (w : world) :
  ~ In (lower m) MODES ->
  mode_page m w =
  (Done (handled (render_template (error_html "Invalid Mode") 404)), w)
  /\ forall s,
       subject_page m s w =
       (Done (render_template (error_html "Invalid Mode or Subject") 404),
        w).
Proof.
  intros Hm. split.
  - unfold mode_page. apply invalid_mode_lower in Hm. now rewrite Hm.
  - intros s. apply subject_page_invalid. now left.
Qed.

Lemma unknown_mode_is_404_witness :
  mode_page "login2" Sample.seeded =
  (Done (handled (render_template (error_html "Invalid Mode") 404)),
   Sample.seeded)
  /\ subject_page "login2" "ict" Sample.seeded =
     (Done (render_template (error_html "Invalid Mode or Subject") 404),
      Sample.seeded).
Proof.
  destruct (unknown_mode_is_404 "login2" Sample.seeded) as [H1 H2].
  - simpl. intros [H|[H|[]]]; discriminate H.
  - split; [exact H1|apply H2].
Defined.

(** X11. Every record that a subject page lists can be opened: for a
    record in the listing of [subject_page], [pdf_view] on the record's
    subject and filename renders a stored record with the same subject
    and filename, not the 404 page. *)
Theorem listed_pdf_opens (m s : string) (w : world) (listed : list Document)
        (d : Document) :
  fst (subject_page m s w) =
  Done (render_template (subject_html (lower m) (lower s) listed) 200) ->
  In d listed ->
  exists pdf,
    fst (pdf_view (subject d) (filename d) w) =
    Done (render_template (pdf_view_html pdf) 200)
    /\ In pdf (pdfs w)
    /\ subject pdf = subject d /\ filename pdf = filename d.
Proof.
  intros E Hd.
  destruct (in_dec string_dec (lower m) MODES) as [Hm|Hm].
  2:{ rewrite subject_page_invalid in E by now left. discriminate E. }
  destruct (in_dec string_dec (lower s) SUBJECTS) as [Hs|Hs].
  2:{ rewrite subject_page_invalid in E by now right. discriminate E. }
  rewrite (subject_page_valid m s w Hm Hs) in E. cbn [fst] in E.
  injection E as <-.
  apply filter_In in Hd as [Hin Hp].
  rewrite andb_true_r, andb_true_iff, !String.eqb_eq in Hp.
  destruct Hp as [_ Hsub].
  assert (Hv : In (lower (subject d)) SUBJECTS)
    by (now rewrite Hsub, lower_idem).
  rewrite (pdf_view_valid _ _ _ Hv). cbn [fst].
  destruct (find _ (pdfs w)) as [pdf|] eqn:F.
  - apply find_some in F as [Hpin Hq].
    rewrite andb_true_r, andb_true_iff, !String.eqb_eq in Hq.
    rewrite Hsub, lower_idem, <- Hsub in Hq.
    exists pdf. tauto.
  - exfalso. pose proof (find_none _ _ F d Hin) as N. cbn beta in N.
    rewrite Hsub, lower_idem, !String.eqb_refl in N. discriminate N.
Qed.

Lemma listed_pdf_opens_witness :
  exists pdf,
    fst (pdf_view "ict" "chapter-1" Sample.seeded) =
    Done (render_template (pdf_view_html pdf) 200)
    /\ In pdf (pdfs Sample.seeded)
    /\ subject pdf = "ict"%string /\ filename pdf = "chapter-1"%string.
Proof.
  apply (listed_pdf_opens "Academic" "ICT" Sample.seeded
           [Sample.chapter_1] Sample.chapter_1).
  - reflexivity.
  - simpl. tauto.
Defined.

(** X12. A well-formed record is listed on one subject page and no
    other: [subject_page] on the record's own mode and subject lists it,
    and whenever a subject page lists it, the page is the one of the
    record's mode and subject. *)
Theorem record_on_exactly_one_page
        (slugify : string -> string) (d : Document) (w : world) :
  In d (pdfs w) ->
  Inv.well_formed slugify d ->
  (exists listed,
     fst (subject_page (mode d) (subject d) w) =
     Done (render_template (subject_html (mode d) (subject d) listed) 200)
     /\ In d listed)
  /\ forall m s m' s' listed status,
       fst (subject_page m s w) =
       Done (render_template (subject_html m' s' listed) status) ->
       In d listed ->
       m' = mode d /\ s' = subject d.
Proof.
  intros Hin (Hm & Hs & _).
  pose proof (MODES_lowercase _ Hm) as Lm.
  pose proof (SUBJECTS_lowercase _ Hs) as Ls.
  split.
  - rewrite subject_page_valid by (rewrite ?Lm, ?Ls; assumption).
    rewrite Lm, Ls. cbn [fst]. eexists. split; [reflexivity|].
    apply filter_In. split; [assumption|]. now rewrite !String.eqb_refl.
  - intros m s m' s' listed status E Hd.
    destruct (in_dec string_dec (lower m) MODES) as [Vm|Vm].
    2:{ rewrite subject_page_invalid in E by now left. discriminate E. }
    destruct (in_dec string_dec (lower s) SUBJECTS) as [Vs|Vs].
    2:{ rewrite subject_page_invalid in E by now right. discriminate E. }
    rewrite (subject_page_valid m s w Vm Vs) in E. cbn [fst] in E.
    injection E as <- <- <- _.
    apply filter_In in Hd as [_ Hp].
    rewrite andb_true_r, andb_true_iff, !String.eqb_eq in Hp.
    destruct Hp as [-> ->]. auto.
Qed.

Lemma record_on_exactly_one_page_witness :
  exists listed,
    fst (subject_page "admission" "physics 2nd paper" Sample.seeded) =
    Done (render_template
            (subject_html "admission" "physics 2nd paper" listed) 200)
    /\ In Sample.optics listed.
Proof.
  apply (record_on_exactly_one_page Slug.slugify_ascii Sample.optics
           Sample.seeded).
  - simpl. tauto.
  - unfold Inv.well_formed. simpl. repeat split; try tauto; discriminate.
Defined.

(** ** Search against the catalog *)

Lemma SUBJECTS_plain (s : string) :
  In s SUBJECTS ->
  strip s = s /\ s <> ""%string /\ Regex.no_meta s = true.
Proof.
  simpl. intros H.
  repeat (destruct H as [<-|H];
          [split; [reflexivity|split; [discriminate|reflexivity]]|]).
  destruct H.
Qed.

(** X13. Searching for a subject name finds at least what the subject's
    pages list: for a name of [SUBJECTS], every record that
    [subject_page] lists under it, in either mode, is among the results
    of [search] for that name. *)
Theorem search_covers_subject_page
        (m s : string) (w : world) (listed : list Document) (d : Document) :
  In s SUBJECTS ->
  fst (subject_page m s w) =
  Done (render_template (subject_html (lower m) s listed) 200) ->
  In d listed ->
  exists results,
    fst (search [("query", s)] w) =
    Done (render_template (search_results_html results s) 200)
    /\ In d results.
Proof.
  intros Hs E Hd.
  destruct (SUBJECTS_plain s Hs) as (St & Sn & Sm).
  pose proof (SUBJECTS_lowercase s Hs) as Ls.
  destruct (in_dec string_dec (lower m) MODES) as [Hm|Hm].
  2:{ rewrite subject_page_invalid in E by now left. discriminate E. }
  rewrite subject_page_valid in E by (rewrite ?Ls; assumption).
  cbn [fst] in E. rewrite Ls in E. injection E as <-.
  apply filter_In in Hd as [Hin Hp].
  rewrite andb_true_r, andb_true_iff, !String.eqb_eq in Hp.
  destruct Hp as [_ Hsub].
  assert (Q : strip (md_get [("query", s)] "query" "") = s) by exact St.
  rewrite search_literal_run by (rewrite Q; assumption).
  rewrite Q. cbn [fst]. eexists. split; [reflexivity|].
  apply filter_In. split; [assumption|].
  unfold Spec.literal_match, Spec.contains_ci.
  rewrite Hsub, contains_refl. apply orb_true_iff. left. apply orb_true_r.
Qed.

Lemma search_covers_subject_page_witness :
  exists results,
    fst (search [("query", "ict")] Sample.seeded) =
    Done (render_template (search_results_html results "ict") 200)
    /\ In Sample.chapter_1 results.
Proof.
  apply (search_covers_subject_page "Academic" "ict" Sample.seeded
           [Sample.chapter_1] Sample.chapter_1).
  - simpl. tauto.
  - reflexivity.
  - simpl. tauto.
Defined.

Lemma lower_empty (s : string) : lower s = ""%string -> s = ""%string.
Proof. destruct s; simpl; [reflexivity|discriminate]. Qed.

(** X14. For queries without regex metacharacters, [search] ignores the
    letter case of the query: two queries whose trimmed forms agree up
    to case return the same list of records. *)
Theorem search_ignores_query_case (q1 q2 : string) (w : world) :
  let t1 := strip q1 in
  let t2 := strip q2 in
  t1 <> ""%string ->
  Regex.no_meta t1 = true ->
  Regex.no_meta t2 = true ->
  lower t1 = lower t2 ->
  exists results,
    fst (search [("query", q1)] w) =
    Done (render_template (search_results_html results t1) 200)
    /\ fst (search [("query", q2)] w) =
       Done (render_template (search_results_html results t2) 200).
Proof.
  intros t1 t2 H1 N1 N2 E.
  assert (H2 : t2 <> ""%string).
  { intros Z. apply H1. apply lower_empty. rewrite E, Z. reflexivity. }
  exists (filter (Spec.literal_match t1) (pdfs w)). split.
  - now rewrite search_literal_run.
  - rewrite search_literal_run by assumption. cbn [fst].
    change (strip (md_get [("query", q2)] "query" "")) with t2.
    rewrite (filter_ext (Spec.literal_match t2) (Spec.literal_match t1));
      [reflexivity|].
    intros d. unfold Spec.literal_match, Spec.contains_ci. now rewrite E.
Qed.

Lemma search_ignores_query_case_witness :
  exists results,
    fst (search [("query", " LENSES ")] Sample.seeded) =
    Done (render_template (search_results_html results "LENSES") 200)
    /\ fst (search [("query", "lenses")] Sample.seeded) =
       Done (render_template (search_results_html results "lenses") 200).
Proof.
  apply (search_ignores_query_case " LENSES " "lenses" Sample.seeded).
  - vm_compute. discriminate.
  - reflexivity.
  - reflexivity.
  - reflexivity.
Defined.

(** ** The session: [login], [logout] and the gate of [upload] *)

Lemma login_run (config : Config) (method : string) (form : MultiDict)
      (w : world) :
  login config method form w =
  if Inv.opens_session config (req_login method form) then
    (Done (redirect_site to_upload),
     {| pdfs := pdfs w; calls := calls w; admin_logged_in := true;
        flashes := flashes w ++ [("Logged in successfully.", "success")] |})
  else if String.eqb method "POST" then
    (Done (render_site login_html 200),
     Spec.flashed [("Invalid credentials.", "danger")] w)
  else (Done (render_site login_html 200), w).
Proof.
  unfold login, Inv.opens_session.
  destruct (String.eqb method "POST"); [|reflexivity].
  cbn [andb].
  destruct (str_is _ (ADMIN_USERNAME config) && str_is _ (ADMIN_PASSWORD config));
    reflexivity.
Qed.

(** X15. [login] opens the session exactly on a POST that carries the
    configured user name and password, compared after trimming; then it
    redirects to the upload page.  Any other login request renders the
    login page and leaves the session as it was, so a failed attempt
    does not log an administrator out.  The collection is never
    touched. *)
Theorem login_opens_session_exactly
        (config : Config) (method : string) (form : MultiDict) (w : world) :
  let ok := Inv.opens_session config (req_login method form) in
  let w' := snd (login config method form w) in
  admin_logged_in w' = ok || admin_logged_in w
  /\ pdfs w' = pdfs w
  /\ calls w' = calls w
  /\ fst (login config method form w) =
     Done (if ok then redirect_site to_upload
           else render_site login_html 200).
Proof.
  intros ok w'. unfold w', ok. rewrite login_run.
  destruct (Inv.opens_session config (req_login method form)).
  - repeat split.
  - destruct (String.eqb method "POST"); repeat split.
Qed.

Lemma str_is_trimmed (x : string) (v : option string) :
  str_is (strip x) v = true -> exists t, v = Some t /\ strip t = t.
Proof.
  destruct v as [t|]; simpl; [|discriminate].
  intros H. apply String.eqb_eq in H. exists t.
  split; [reflexivity|]. rewrite <- H. apply strip_idem.
Qed.

(** X16. Credentials that cannot be entered: when the configured user
    name or password is unset, or has whitespace at either end, no login
    request opens the session, whatever it submits, because the
    submitted values are trimmed before they are compared. *)
Theorem login_impossible
        (config : Config) (method : string) (form : MultiDict) (w : world) :
  ADMIN_USERNAME config = None
  \/ ADMIN_PASSWORD config = None
  \/ (exists u, ADMIN_USERNAME config = Some u /\ strip u <> u)
  \/ (exists p, ADMIN_PASSWORD config = Some p /\ strip p <> p) ->
  admin_logged_in w = false ->
  admin_logged_in (snd (login config method form w)) = false
  /\ fst (login config method form w) = Done (render_site login_html 200).
Proof.
  intros Hc Hw.
  assert (N : Inv.opens_session config (req_login method form) = false).
  { destruct (Inv.opens_session config (req_login method form)) eqn:E;
      [|reflexivity].
    exfalso. unfold Inv.opens_session in E.
    apply andb_true_iff in E as [E Ep]. apply andb_true_iff in E as [_ Eu].
    apply str_is_trimmed in Eu as (u & Hu & Su).
    apply str_is_trimmed in Ep as (p & Hp & Sp).
    destruct Hc as [H|[H|[(u' & H & N)|(p' & H & N)]]]; congruence. }
  rewrite login_run, N.
  destruct (String.eqb method "POST"); split; assumption || reflexivity.
Qed.

Lemma login_impossible_witness :
  let config := {| SECRET_KEY := Some "devkey"; MONGO_URI := None;
                   DATABASE_NAME := None;
                   ADMIN_USERNAME := Some "admin";
                   ADMIN_PASSWORD := Some "secret " |} in
  let w := {| pdfs := []; calls := []; admin_logged_in := false;
              flashes := [] |} in
  admin_logged_in
    (snd (login config "POST"
                [("username", "admin"); ("password", "secret ")] w)) = false.
Proof.
  intros config w.
  apply (login_impossible config "POST"
           [("username", "admin"); ("password", "secret ")] w).
  - right. right. right. exists "secret "%string.
    split; [reflexivity|]. vm_compute. discriminate.
  - reflexivity.
Defined.

Lemma getenv_absent (env : environ) (key : string) (default : option string) :
  ~ In key (map fst env) -> getenv env key default = default.
Proof.
  induction env as [|[k v] env IH]; simpl; [reflexivity|].
  intros N. destruct (String.eqb_spec k key) as [->|_].
  - exfalso. apply N. now left.
  - apply IH. intros H. apply N. now right.
Qed.

Lemma getenv_default_set (env : environ) (key d : string) :
  getenv env key (Some d) <> None.
Proof.
  induction env as [|[k v] env IH]; simpl; [discriminate|].
  destruct (String.eqb k key); [discriminate|exact IH].
Qed.

(** X17. The configuration read from the environment: the secret key is
    always set, falling back to "devkey"; and when [ADMIN_USERNAME] or
    [ADMIN_PASSWORD] is missing from the environment, no login request
    opens the session. *)
Theorem config_from_environment
        (env : environ) (method : string) (form : MultiDict) (w : world) :
  SECRET_KEY (load_config env) <> None
  /\ (~ In "ADMIN_USERNAME"%string (map fst env)
      \/ ~ In "ADMIN_PASSWORD"%string (map fst env) ->
      admin_logged_in w = false ->
      admin_logged_in (snd (login (load_config env) method form w)) = false).
Proof.
  split; [apply getenv_default_set|].
  intros Hk Hw.
  assert (N : Inv.opens_session (load_config env) (req_login method form)
              = false).
  { unfold Inv.opens_session, load_config. cbn [ADMIN_USERNAME ADMIN_PASSWORD].
    destruct Hk as [H|H]; rewrite (getenv_absent _ _ _ H); cbn [str_is].
    - now rewrite andb_false_r.
    - now rewrite andb_false_r. }
  rewrite login_run, N.
  destruct (String.eqb method "POST"); assumption.
Qed.

Lemma config_from_environment_witness :
  let env := [("MONGO_URI", "mongodb://localhost"); ("ADMIN_USERNAME", "admin")] in
  let w := {| pdfs := []; calls := []; admin_logged_in := false;
              flashes := [] |} in
  admin_logged_in
    (snd (login (load_config env) "POST" [("username", "admin")] w)) = false.
Proof.
  intros env w.
  apply (config_from_environment env "POST" [("username", "admin")] w).
  - right. simpl. intros [H|[H|[]]]; discriminate H.
  - reflexivity.
Defined.

(** ** Sequences of requests *)

Lemma lift_snd (m : M response) (w : world) :
  snd (lift m w) = snd (m w).
Proof.
  unfold lift, bind. destruct (m w) as [[r|e] w']; reflexivity.
Qed.

Lemma subject_page_world (m s : string) (w : world) :
  snd (subject_page m s w) = w
  \/ exists c, snd (subject_page m s w) = log c w.
Proof.
  destruct (in_dec string_dec (lower m) MODES) as [Hm|Hm].
  2:{ left. rewrite subject_page_invalid by now left. reflexivity. }
  destruct (in_dec string_dec (lower s) SUBJECTS) as [Hs|Hs].
  2:{ left. rewrite subject_page_invalid by now right. reflexivity. }
  right. rewrite (subject_page_valid m s w Hm Hs). eexists. reflexivity.
Qed.

Lemma pdf_view_world (s fn : string) (w : world) :
  snd (pdf_view s fn w) = w
  \/ exists c, snd (pdf_view s fn w) = log c w.
Proof.
  destruct (in_dec string_dec (lower s) SUBJECTS) as [Hs|Hs].
  - right. rewrite (pdf_view_valid s fn w Hs). eexists. reflexivity.
  - left. now rewrite (pdf_view_invalid s fn w Hs).
Qed.

Lemma search_world (args : MultiDict) (w : world) :
  snd (search args w) = w
  \/ exists c, snd (search args w) = log c w.
Proof.
  destruct (string_dec (strip (md_get args "query" "")) "") as [E|N].
  - left. unfold search. rewrite E. reflexivity.
  - right. rewrite (search_run args w N).
    destruct (Regex.compile _); eexists; reflexivity.
Qed.

(** What a request that only reads leaves behind. *)
Lemma read_only_world
      (config : Config) (slugify : string -> string) (r : request)
      (w : world) :
  Inv.read_only r = true ->
  snd (dispatch config slugify r w) = w
  \/ exists c, snd (dispatch config slugify r w) = log c w.
Proof.
  destruct r; cbn [Inv.read_only dispatch]; intros H; try discriminate H.
  - now left.
  - left. unfold mode_page.
    destruct (negb (valid_mode (lower mode0))); reflexivity.
  - rewrite lift_snd. apply subject_page_world.
  - rewrite lift_snd. apply pdf_view_world.
  - rewrite lift_snd. apply search_world.
Qed.

(** X18. Browsing and searching only read: a request to [/], [/<mode>],
    [/<mode>/<subject>], [/pdf/...] or [/search] leaves the collection,
    the session and the flashed messages as they were and makes at most
    one call on the store, also when the search raises. *)
Theorem browsing_is_read_only
        (config : Config) (slugify : string -> string) (r : request)
        (w : world) :
  Inv.read_only r = true ->
  let w' := snd (dispatch config slugify r w) in
  pdfs w' = pdfs w
  /\ admin_logged_in w' = admin_logged_in w
  /\ flashes w' = flashes w
  /\ exists trace, calls w' = calls w ++ trace /\ length trace <= 1.
Proof.
  intros H w'. unfold w'.
  destruct (read_only_world config slugify r w H) as [E|[c E]]; rewrite E.
  - repeat split. exists []. rewrite app_nil_r. auto.
  - repeat split. exists [c]. auto.
Qed.

Lemma browsing_is_read_only_witness :
  let w' := snd (dispatch (load_config []) Slug.slugify_ascii
                          (req_search [("query", "(")]) Sample.seeded) in
  pdfs w' = pdfs Sample.seeded
  /\ admin_logged_in w' = admin_logged_in Sample.seeded
  /\ flashes w' = flashes Sample.seeded
  /\ exists trace, calls w' = calls Sample.seeded ++ trace
                   /\ length trace <= 1.
Proof.
  apply (browsing_is_read_only (load_config []) Slug.slugify_ascii
           (req_search [("query", "(")]) Sample.seeded).
  reflexivity.
Defined.

Lemma dispatch_store
      (config : Config) (slugify : string -> string) (r : request)
      (w : world) :
  pdfs (snd (dispatch config slugify r w)) =
  match r with
  | req_upload method form => pdfs (snd (upload slugify method form w))
  | _ => pdfs w
  end.
Proof.
  destruct (Inv.read_only r) eqn:R.
  { destruct (read_only_world config slugify r w R) as [E|[c E]]; rewrite E;
      destruct r; try discriminate R; reflexivity. }
  destruct r; try discriminate R.
  - cbn [dispatch]. rewrite login_run.
    destruct (Inv.opens_session _ _); [reflexivity|].
    destruct (String.eqb method "POST"); reflexivity.
  - reflexivity.
  - cbn [dispatch]. now rewrite lift_snd.
Qed.

Lemma dispatch_session
      (config : Config) (slugify : string -> string) (r : request)
      (w : world) :
  admin_logged_in (snd (dispatch config slugify r w)) =
  match r with
  | req_login _ _ => Inv.opens_session config r || admin_logged_in w
  | req_logout => false
  | _ => admin_logged_in w
  end.
Proof.
  destruct (Inv.read_only r) eqn:R.
  { destruct (read_only_world config slugify r w R) as [E|[c E]]; rewrite E;
      destruct r; try discriminate R; reflexivity. }
  destruct r; try discriminate R.
  - cbn [dispatch]. rewrite login_run.
    destruct (Inv.opens_session _ _); [reflexivity|].
    destruct (String.eqb method "POST"); reflexivity.
  - reflexivity.
  - cbn [dispatch]. rewrite lift_snd.
    destruct (upload_cases slugify method form w)
      as [(H1 & E)|[(H1 & H2 & E)|[(H1 & H2 & H3 & E)
         |[(H1 & H2 & H3 & H4 & E)|(H1 & H2 & H3 & H4 & E)]]]];
      rewrite E; reflexivity.
Qed.

(** X19. Without the credentials nothing can be added: from a logged-out
    session, after any sequence of requests none of which is a login
    carrying the configured credentials, the collection is what it was
    and the session is still logged out. *)
Theorem no_login_no_write
        (config : Config) (slugify : string -> string)
        (reqs : list request) (w : world) :
  admin_logged_in w = false ->
  forallb (fun r => negb (Inv.opens_session config r)) reqs = true ->
  pdfs (serve config slugify reqs w) = pdfs w
  /\ admin_logged_in (serve config slugify reqs w) = false.
Proof.
  revert w. induction reqs as [|r reqs IH]; intros w Hw Hr.
  - simpl. auto.
  - simpl in Hr. apply andb_true_iff in Hr as [Hr1 Hr2].
    apply negb_true_iff in Hr1.
    assert (S1 : admin_logged_in (snd (dispatch config slugify r w)) = false).
    { rewrite dispatch_session. destruct r; try assumption.
      now rewrite Hr1. }
    assert (P1 : pdfs (snd (dispatch config slugify r w)) = pdfs w).
    { rewrite dispatch_store. destruct r; try reflexivity.
      now rewrite (upload_logged_out slugify method form w Hw). }
    simpl serve. destruct (IH _ S1 Hr2) as [IH1 IH2].
    split; [now rewrite IH1|exact IH2].
Qed.

Lemma no_login_no_write_witness :
  let config := {| SECRET_KEY := Some "devkey"; MONGO_URI := None;
                   DATABASE_NAME := None;
                   ADMIN_USERNAME := Some "admin";
                   ADMIN_PASSWORD := Some "secret" |} in
  let w := {| pdfs := [Sample.optics]; calls := [];
              admin_logged_in := false; flashes := [] |} in
  let reqs := [req_login "POST" [("username", "admin"); ("password", "guess")];
               req_upload "POST" Sample.submission;
               req_search [("query", "optics")]] in
  pdfs (serve config Slug.slugify_ascii reqs w) = [Sample.optics]
  /\ admin_logged_in (serve config Slug.slugify_ascii reqs w) = false.
Proof.
  intros config w reqs.
  apply (no_login_no_write config Slug.slugify_ascii reqs w); reflexivity.
Defined.

Lemma dispatch_store_cases
      (config : Config) (slugify : string -> string) (r : request)
      (w : world) :
  pdfs (snd (dispatch config slugify r w)) = pdfs w
  \/ exists form,
       Inv.is_upload r = true
       /\ Spec.violations form = []
       /\ (forall x, In x (pdfs w) ->
                     Inv.key_of x <> Inv.key_of (Spec.record_of slugify form))
       /\ pdfs (snd (dispatch config slugify r w)) =
          pdfs w ++ [Spec.record_of slugify form].
Proof.
  rewrite dispatch_store. destruct r; try (now left).
  destruct (upload_store_cases slugify method form w) as [E|(Hv & Hf & E)].
  - now left.
  - right. exists form. repeat split; try assumption.
    intros x Hx K. apply has_key_of in K. rewrite (Hf x Hx) in K.
    discriminate K.
Qed.

(** X20. Every store the site can reach is well formed: starting from a
    collection whose records are well formed and have pairwise distinct
    keys (the empty collection, for one), after any sequence of requests
    of a session every stored record still has a valid mode and
    subject, a non-empty trimmed title and link and the slug of its
    title as filename, and no two records share their (mode, subject,
    filename). *)
Theorem reachable_store_invariant
        (config : Config) (slugify : string -> string)
        (reqs : list request) (w : world) :
  (forall d, In d (pdfs w) -> Inv.well_formed slugify d) ->
  NoDup (map Inv.key_of (pdfs w)) ->
  (forall d, In d (pdfs (serve config slugify reqs w)) ->
             Inv.well_formed slugify d)
  /\ NoDup (map Inv.key_of (pdfs (serve config slugify reqs w))).
Proof.
  revert w. induction reqs as [|r reqs IH]; intros w Hw Hn.
  - simpl. auto.
  - simpl serve. apply IH.
    + intros d.
      destruct (dispatch_store_cases config slugify r w)
        as [E|(form & _ & Hv & _ & E)]; rewrite E; [apply Hw|].
      intros Hin. apply in_app_or in Hin as [Hin|[<-|[]]]; [now apply Hw|].
      now apply record_well_formed.
    + destruct (dispatch_store_cases config slugify r w)
        as [E|(form & _ & _ & Hf & E)]; rewrite E; [assumption|].
      rewrite map_app. apply NoDup_app; [assumption| |].
      * simpl. constructor; [intros []|constructor].
      * intros k Hk [<-|[]].
        apply in_map_iff in Hk as (x & Ex & Hx). exact (Hf x Hx Ex).
Qed.

Lemma reachable_store_invariant_witness :
  let config := {| SECRET_KEY := Some "devkey"; MONGO_URI := None;
                   DATABASE_NAME := None;
                   ADMIN_USERNAME := Some "admin";
                   ADMIN_PASSWORD := Some "secret" |} in
  let reqs := [req_login "POST" [("username", "admin"); ("password", "secret")];
               req_upload "POST" Sample.submission;
               req_upload "POST" Sample.submission] in
  let w := serve config Slug.slugify_ascii reqs
                 {| pdfs := []; calls := []; admin_logged_in := false;
                    flashes := [] |} in
  (forall d, In d (pdfs w) -> Inv.well_formed Slug.slugify_ascii d)
  /\ NoDup (map Inv.key_of (pdfs w)).
Proof.
  intros config reqs w.
  apply (reachable_store_invariant config Slug.slugify_ascii reqs).
  - simpl. intros d [].
  - simpl. constructor.
Defined.

(** X21. The site never deletes or rewrites a record: after any sequence
    of requests the collection begins with the records it had, in their
    order, and it has grown by at most one record for each upload
    request in the sequence. *)
Theorem store_only_grows
        (config : Config) (slugify : string -> string)
        (reqs : list request) (w : world) :
  Inv.extends (pdfs w) (pdfs (serve config slugify reqs w))
  /\ length (pdfs (serve config slugify reqs w)) <=
     length (pdfs w) + length (filter Inv.is_upload reqs).
Proof.
  revert w. induction reqs as [|r reqs IH]; intros w.
  - simpl. split; [exists []; now rewrite app_nil_r|lia].
  - simpl serve.
    destruct (IH (snd (dispatch config slugify r w))) as [[more Hm] Hl].
    destruct (dispatch_store_cases config slugify r w)
      as [E|(form & Hu & _ & _ & E)]; rewrite E in Hm, Hl.
    + split; [now exists more|].
      simpl. destruct (Inv.is_upload r); simpl; lia.
    + split.
      * exists ([Spec.record_of slugify form] ++ more).
        now rewrite Hm, <- app_assoc.
      * simpl. rewrite Hu. rewrite length_app in Hl. simpl in *. lia.
Qed.

(** X22. The gate follows the session: right after [logout] an upload
    request changes nothing in the collection, whatever it submits and
    whatever the session was; right after a login with the configured
    credentials a valid submission with a fresh key is stored. *)
Theorem upload_gate_follows_session
        (config : Config) (slugify : string -> string)
        (method : string) (form : MultiDict) (w : world) :
  pdfs (serve config slugify [req_logout; req_upload method form] w) = pdfs w
  /\ forall login_method login_form,
       Inv.opens_session config (req_login login_method login_form) = true ->
       Spec.violations form = [] ->
       (forall x, In x (pdfs w) ->
                  Inv.key_of x <> Inv.key_of (Spec.record_of slugify form)) ->
       pdfs (serve config slugify
                   [req_login login_method login_form;
                    req_upload "POST" form] w) =
       pdfs w ++ [Spec.record_of slugify form].
Proof.
  split.
  - cbn [serve]. rewrite dispatch_store.
    rewrite upload_logged_out; reflexivity.
  - intros lm lf Hok Hv Hf. cbn [serve]. rewrite dispatch_store.
    set (w1 := snd (dispatch config slugify (req_login lm lf) w)).
    assert (A1 : admin_logged_in w1 = true).
    { unfold w1. rewrite dispatch_session, Hok. reflexivity. }
    assert (P1 : pdfs w1 = pdfs w) by (unfold w1; now rewrite dispatch_store).
    rewrite upload_created; [simpl; now rewrite P1|exact A1|exact Hv|].
    intros x Hx. rewrite P1 in Hx.
    destruct (Spec.has_key _ _ _ x) eqn:K; [|reflexivity].
    apply has_key_of in K. exfalso. exact (Hf x Hx K).
Qed.

Lemma upload_gate_follows_session_witness :
  let config := {| SECRET_KEY := Some "devkey"; MONGO_URI := None;
                   DATABASE_NAME := None;
                   ADMIN_USERNAME := Some "admin";
                   ADMIN_PASSWORD := Some "secret" |} in
  pdfs (serve config Slug.slugify_ascii
              [req_login "POST" [("username", " admin"); ("password", "secret")];
               req_upload "POST" Sample.submission]
              {| pdfs := []; calls := []; admin_logged_in := false;
                 flashes := [] |}) =
  [Sample.chapter_1].
Proof.
  intros config.
  apply (upload_gate_follows_session config Slug.slugify_ascii "POST"
           Sample.submission
           {| pdfs := []; calls := []; admin_logged_in := false;
              flashes := [] |}).
  - reflexivity.
  - reflexivity.
  - simpl. intros x [].
Defined.

Lemma md_get_absent (md : MultiDict) (k default : string) :
  (forall v, ~ In (k, v) md) -> md_get md k default = default.
Proof.
  induction md as [|[k' v'] md IH]; simpl; [reflexivity|].
  intros N. destruct (String.eqb_spec k' k) as [->|_].
  - exfalso. apply (N v'). now left.
  - apply IH. intros v H. apply (N v). now right.
Qed.

(** X23. Missing fields count as empty: a POST to [upload] whose form
    has none of the keys [mode], [subject], [title] and [link] is
    answered with all four messages, in the order mode, subject, title,
    link, and nothing is stored. *)
Theorem upload_missing_fields
        (slugify : string -> string) (form : MultiDict) (w : world) :
  admin_logged_in w = true ->
  (forall k v, In (k, v) form ->
               k <> "mode" /\ k <> "subject" /\ k <> "title" /\ k <> "link")%string ->
  upload slugify "POST" form w =
  (Done (render_template (upload_html (Some form)) 200),
   Spec.flashed
     [("Invalid mode selected.", "danger");
      ("Invalid subject selected.", "danger");
      ("Title is required.", "danger");
      ("Link is required.", "danger")] w).
Proof.
  intros Hadm Hk.
  assert (V : Spec.violations form =
              ["Invalid mode selected."; "Invalid subject selected.";
               "Title is required."; "Link is required."]%string).
  { unfold Spec.violations.
    rewrite !md_get_absent; [reflexivity| | | |];
      intros v H; apply Hk in H; tauto. }
  rewrite upload_validation_failed; [|exact Hadm|rewrite V; discriminate].
  rewrite V. reflexivity.
Qed.

Lemma upload_missing_fields_witness :
  upload Slug.slugify_ascii "POST" [("description", "no fields")]
         Sample.seeded =
  (Done (render_template
           (upload_html (Some [("description", "no fields")])) 200),
   Spec.flashed
     [("Invalid mode selected.", "danger");
      ("Invalid subject selected.", "danger");
      ("Title is required.", "danger");
      ("Link is required.", "danger")] Sample.seeded).
Proof.
  apply (upload_missing_fields Slug.slugify_ascii
           [("description", "no fields")] Sample.seeded).
  - reflexivity.
  - simpl. intros k v [H|[]]. injection H as <- _.
    repeat split; discriminate.
Defined.
